(** * Authenticated batch upload: queue builder, request gateway, upload
      controller and manual retry

    A shallow embedding of
      - [src/utils/fetchWithAuth.ts]  (the credentialed request gateway),
      - [src/App.tsx]                 ([handleLogout], the expiry callback),
      - [src/pages/UploadPage.tsx]    ([isAllowed], [addFiles], [removeFile],
                                       [confirmUpload], [retryWebhook], the
                                       success modal and the retry button).

    Asynchronous functions are embedded as trees of effects ([Proc]): every
    [await] of a network call is a node whose continuation receives the
    outcome, so that the same definition can be run to completion against a
    scripted network ([exec]) or suspended and resumed under an arbitrary
    interleaving of user clicks and network answers ([Retry]). *)

From Stdlib Require Import NArith Ascii.
From Stdlib Require String.
From stdpp Require Import base option list strings pretty gmap.

Local Open Scope N_scope.

(** ** JavaScript strings

    Strings are sequences of code units; only the ASCII letters matter for
    the lower-casing done by the code (no other character lower-cases to one
    of the letters of [".pdf"] and [".xlsx"]). *)

Module Js.

Definition lower_ascii (c : ascii) : ascii :=
  let n := N_of_ascii c in
  if (65 <=? n) && (n <=? 90) then ascii_of_N (n + 32) else c.

Fixpoint toLowerCase (s : string) : string :=
  match s with
  | EmptyString => EmptyString
  | String c s' => String (lower_ascii c) (toLowerCase s')
  end.

(** [s.endsWith(suffix)] *)
Definition endsWith (s suffix : string) : bool :=
  let n := String.length s in
  let m := String.length suffix in
  (m <=? n)%nat && String.eqb (String.substring (n - m) m s) suffix.



(** Truthiness of a [string | null | undefined]: absent and empty strings
    are falsy. *)
Definition truthy (o : option string) : bool :=
  match o with
  | Some s => negb (String.eqb s "")
  | None => false
  end.

(** [o || undefined] *)
Definition or_undefined (o : option string) : option string :=
  if truthy o then o else None.

End Js.

(** ** Files of the browser ([File]) *)

Module File.
Record t : Type := mk {
  name : string;
  size : N;
  type : string;       (* MIME type reported by the browser *)
  content : string     (* the bytes *)
}.

(** The pair the queue deduplicates on. *)
Definition key (f : t) : string * N := (name f, size f).

Global Instance eq_dec : EqDecision t.
Proof. solve_decision. Defined.
End File.

(** ** Upload queue builder ([UploadPage.tsx], "Helpers multi-archivo") *)

Definition ALLOWED_TYPES : list string :=
  [ "application/pdf";
    "application/vnd.openxmlformats-officedocument.spreadsheetml.sheet" ].

Definition isAllowed (f : File.t) : bool :=
  let name := Js.toLowerCase (File.name f) in
  bool_decide (File.type f ∈ ALLOWED_TYPES)
  || Js.endsWith name ".pdf"
  || Js.endsWith name ".xlsx".

(** [d.name === f.name && d.size === f.size] *)
Definition same_file (d f : File.t) : bool :=
  String.eqb (File.name d) (File.name f) && (File.size d =? File.size f).

(** [dedup.some((d) => ...)] *)
Definition some_same (dedup : list File.t) (f : File.t) : bool :=
  existsb (λ d, same_file d f) dedup.

(** The [for (const f of valid)] loop, pushing onto [dedup]. *)
Fixpoint push_new (dedup valid : list File.t) : list File.t :=
  match valid with
  | [] => dedup
  | f :: valid' =>
      let exists_ := some_same dedup f in
      push_new (if exists_ then dedup else dedup ++ [f]) valid'
  end.

Definition ignored_notice : string :=
  "Algunos archivos fueron ignorados (solo PDF o XLSX).".

(** [addFiles(list)]: returns the notices shown with [alert] and the queue
    handed to [setFiles].  [files] is the queue of the current render. *)
Definition addFiles (files list_ : list File.t) : list string * list File.t :=
  let incoming := list_ in
  let valid := filter (λ f, isAllowed f = true) incoming in
  let alerts :=
    if bool_decide (length valid ≠ length incoming) then [ignored_notice] else [] in
  let dedup := files in
  (alerts, push_new dedup valid).

(** [removeFile(name, size)], as a function of the previous queue. *)
Definition removeFile (name : string) (size : N) (prev : list File.t) : list File.t :=
  filter (λ f, negb (String.eqb (File.name f) name && (File.size f =? size)) = true) prev.

(** The queue invariant: no two entries with the same (name, size). *)
Definition no_duplicates (q : list File.t) : Prop := NoDup (File.key <$> q).


(** ** Records of the history table ([Operacion]) *)

Inductive DocType : Type := factura | venta.

Definition DocType_string (d : DocType) : string :=
  match d with factura => "factura" | venta => "venta" end.

Inductive UploadStatus : Type :=
  UPLOADED | PROCESSING | PROCESSED | FAILED | DUPLICATED.

Inductive Tipo : Type := FACTURA | VENTA.

Global Instance UploadStatus_eq_dec : EqDecision UploadStatus.
Proof. solve_decision. Defined.

Global Instance Tipo_eq_dec : EqDecision Tipo.
Proof. solve_decision. Defined.

Module Operacion.
Record t : Type := mk {
  id : string;
  fecha : string;
  tipo : Tipo;
  original_filename : string;
  descripcion : string;
  tam_bytes : option N;
  storage_path : option string;
  status : option UploadStatus
}.

Global Instance eq_dec : EqDecision t.
Proof. solve_decision. Defined.
End Operacion.

(** ** The Fetch API, as far as the code uses it *)

Inductive FormValue : Type :=
| FormFile (f : File.t)
| FormText (s : string).

Inductive Body : Type :=
| NoBody
| FormData (fields : list (string * FormValue))
| TextBody (s : string).

(** A [Headers] object: header names are case-insensitive, so the map is
    keyed by the lower-cased name; appending to a name already present
    combines the values.  Names and values are taken to be legal (the
    constructor throws on others before any request is made). *)
Module Headers.

Definition append (name value : string) (h : gmap string string) : gmap string string :=
  let n := Js.toLowerCase name in
  match h !! n with
  | Some v => <[n := v +:+ ", " +:+ value]> h
  | None => <[n := value]> h
  end.

(** [new Headers(init)] *)
Definition new (init : list (string * string)) : gmap string string :=
  foldl (λ h nv, append nv.1 nv.2 h) ∅ init.

(** [headers.set(name, value)] *)
Definition set (name value : string) (h : gmap string string) : gmap string string :=
  <[Js.toLowerCase name := value]> h.

(** [headers.get(name)] *)
Definition get (name : string) (h : gmap string string) : option string :=
  h !! Js.toLowerCase name.

End Headers.

Module Request.
Record t : Type := mk {
  url : string;
  method : option string;
  headers : gmap string string;
  body : Body
}.
End Request.

Module Response.
Record t : Type := mk {
  status : N;
  text : string;                 (* what [await r.text()] yields *)
  json_error : option string     (* the error of [await r.json()], if the
                                    body does not parse *)
}.

(** [response.ok]: the status is in the range 200-299. *)
Definition ok (r : t) : bool := (200 <=? status r) && (status r <=? 299).
End Response.

(** How the promise returned by [fetch] settles. *)
Inductive Settled : Type :=
| Fulfilled (r : Response.t)
| Rejected (message : string).

(** ** Effects *)

Inductive StateUpdate : Type :=
(* App.tsx *)
| setToken (t : option string)
| setPage (p : string)
(* UploadPage.tsx *)
| setFiles (fs : list File.t)
| setShowConfirm (b : bool)
| setUploading (b : bool)
| setUploadingIndex (i : option nat)
| setRetryingId (id : option string)
| setShowSuccess (b : bool).

Inductive Action : Type :=
| alert (message : string)
| console (level : string) (args : list string)
| update (u : StateUpdate)
| call (callback : string)      (* a callback prop is invoked *)
| detach (chain : string).      (* a promise chain nobody awaits is started *)

Inductive Event : Type :=
| Requested (r : Request.t)
| Answered (s : Settled)
| Slept (ms : N)
| Did (a : Action).

(** An asynchronous computation returning an [A]: a tree whose nodes are the
    synchronous actions and the suspension points of the function. *)
Inductive Proc (A : Type) : Type :=
| Ret (a : A)
| Throw (message : string)
| Act (a : Action) (k : Proc A)
| Fetch (r : Request.t) (k : Settled → Proc A)
| Sleep (ms : N) (k : Proc A).

Arguments Ret {A} a.
Arguments Throw {A} message.
Arguments Act {A} a k.
Arguments Fetch {A} r k.
Arguments Sleep {A} ms k.

Fixpoint bind {A B : Type} (p : Proc A) (f : A → Proc B) : Proc B :=
  match p with
  | Ret a => f a
  | Throw e => Throw e
  | Act a k => Act a (bind k f)
  | Fetch r k => Fetch r (λ s, bind (k s) f)
  | Sleep ms k => Sleep ms (bind k f)
  end.

Global Instance Proc_ret : MRet Proc := @Ret.
Global Instance Proc_bind : MBind Proc := λ A B f p, bind p f.

(** [try { p } catch (e) { h e }] *)
Fixpoint try_catch {A : Type} (p : Proc A) (h : string → Proc A) : Proc A :=
  match p with
  | Ret a => Ret a
  | Throw e => h e
  | Act a k => Act a (try_catch k h)
  | Fetch r k => Fetch r (λ s, try_catch (k s) h)
  | Sleep ms k => Sleep ms (try_catch k h)
  end.

(** [try { p } finally { fin }] *)
Fixpoint try_finally {A : Type} (p : Proc A) (fin : Proc unit) : Proc A :=
  match p with
  | Ret a => fin ;; Ret a
  | Throw e => fin ;; Throw e
  | Act a k => Act a (try_finally k fin)
  | Fetch r k => Fetch r (λ s, try_finally (k s) fin)
  | Sleep ms k => Sleep ms (try_finally k fin)
  end.

Definition act (a : Action) : Proc unit := Act a (Ret tt).

(** [await fetch(url, init)]: a rejected promise is thrown at the [await]. *)
Definition fetch (r : Request.t) : Proc Response.t :=
  Fetch r (λ s, match s with
                | Fulfilled response => Ret response
                | Rejected message => Throw message
                end).

(** Modelled from the spec: [sleep] of [src/utils/sleep] is not among the
    sources; it is the timed delay at which the controller suspends between
    two files. *)
Definition sleep (ms : N) : Proc unit := Sleep ms (Ret tt).

(** ** Application state *)

(** [App.tsx]: the session. *)
Module App.
Record t : Type := mk {
  token : option string;
  page : string
}.
End App.

(** [UploadPage.tsx]: the state of the upload page. *)
Module Page.
Record t : Type := mk {
  docType : option DocType;
  files : list File.t;
  showConfirm : bool;
  uploading : bool;
  uploadingIndex : option nat;
  retryingId : option string;
  showSuccess : bool;
  ops : list Operacion.t
}.
End Page.

Record World : Type := mkWorld {
  app : App.t;
  ui : Page.t;
  trace : list Event        (* oldest event first *)
}.

Definition apply_update (u : StateUpdate) (w : World) : World :=
  let a := app w in
  let p := ui w in
  match u with
  | setToken t => mkWorld (App.mk t (App.page a)) p (trace w)
  | setPage pg => mkWorld (App.mk (App.token a) pg) p (trace w)
  | setFiles fs =>
      mkWorld a (Page.mk (Page.docType p) fs (Page.showConfirm p) (Page.uploading p)
                   (Page.uploadingIndex p) (Page.retryingId p) (Page.showSuccess p)
                   (Page.ops p)) (trace w)
  | setShowConfirm b =>
      mkWorld a (Page.mk (Page.docType p) (Page.files p) b (Page.uploading p)
                   (Page.uploadingIndex p) (Page.retryingId p) (Page.showSuccess p)
                   (Page.ops p)) (trace w)
  | setUploading b =>
      mkWorld a (Page.mk (Page.docType p) (Page.files p) (Page.showConfirm p) b
                   (Page.uploadingIndex p) (Page.retryingId p) (Page.showSuccess p)
                   (Page.ops p)) (trace w)
  | setUploadingIndex i =>
      mkWorld a (Page.mk (Page.docType p) (Page.files p) (Page.showConfirm p)
                   (Page.uploading p) i (Page.retryingId p) (Page.showSuccess p)
                   (Page.ops p)) (trace w)
  | setRetryingId id =>
      mkWorld a (Page.mk (Page.docType p) (Page.files p) (Page.showConfirm p)
                   (Page.uploading p) (Page.uploadingIndex p) id (Page.showSuccess p)
                   (Page.ops p)) (trace w)
  | setShowSuccess b =>
      mkWorld a (Page.mk (Page.docType p) (Page.files p) (Page.showConfirm p)
                   (Page.uploading p) (Page.uploadingIndex p) (Page.retryingId p) b
                   (Page.ops p)) (trace w)
  end.

Definition record (e : Event) (w : World) : World :=
  mkWorld (app w) (ui w) (trace w ++ [e]).

Definition perform (a : Action) (w : World) : World :=
  let w' := record (Did a) w in
  match a with
  | update u => apply_update u w'
  | _ => w'
  end.

(** How a computation ends. *)
Inductive Result (A : Type) : Type :=
| Returned (a : A)
| Threw (message : string).

Arguments Returned {A} a.
Arguments Threw {A} message.

(** The remote service: how it settles a request, given everything that
    happened before. *)
Definition Network : Type := list Event → Request.t → Settled.

(** Running a computation to its end: every [await] resumes as soon as the
    network has settled the request. *)
Fixpoint exec {A : Type} (net : Network) (p : Proc A) (w : World) : Result A * World :=
  match p with
  | Ret a => (Returned a, w)
  | Throw e => (Threw e, w)
  | Act a k => exec net k (perform a w)
  | Fetch r k =>
      let s := net (trace w) r in
      exec net (k s) (record (Answered s) (record (Requested r) w))
  | Sleep ms k => exec net k (record (Slept ms) w)
  end.

(** The events a run added to the trace. *)
Definition events_since (w w' : World) : list Event :=
  drop (length (trace w)) (trace w').

(** ** The credentialed request gateway ([fetchWithAuth.ts]) *)

Module Options.
Record t : Type := mk {
  token : option string;
  onLogout : option (Proc unit);
  method : option string;
  headers : list (string * string);
  body : Body
}.
End Options.

Definition expired_notice : string :=
  "Tu sesión ha expirado. Por favor, inicia sesión nuevamente.".

(** The headers sent: [new Headers(fetchOptions.headers)], then
    [headers.set('Authorization', `Bearer ${token}`)] under [if (token)]. *)
Definition auth_headers (token : option string) (init : list (string * string))
  : gmap string string :=
  let headers := Headers.new init in
  if Js.truthy token
  then Headers.set "Authorization" ("Bearer " +:+ default "" token) headers
  else headers.

(** The request handed to [fetch]: [{ ...fetchOptions, headers }]. *)
Definition gateway_request (url : string) (options : Options.t) : Request.t :=
  let headers := auth_headers (Options.token options) (Options.headers options) in
  Request.mk url (Options.method options) headers (Options.body options).

Definition fetchWithAuth (url : string) (options : Options.t) : Proc Response.t :=
  response ← fetch (gateway_request url options);
  match Response.status response =? 401, Options.onLogout options with
  | true, Some onLogout =>
      act (alert expired_notice);;
      act (call "onLogout");;
      onLogout;;
      mret response
  | _, _ => mret response
  end.

(** [App.tsx]: the callback handed to every page as [onLogout]. *)
Definition handleLogout : Proc unit :=
  act (update (setToken None));;
  act (update (setPage "dashboard")).

(** ** The upload page ([UploadPage.tsx]) *)

(** [loadHistorico()] starts the promise chain that fetches the history and
    stores it with [setOps]; it returns [undefined], so no caller ever waits
    for the chain, which runs detached from the caller. *)
Definition loadHistorico : Proc unit := act (detach "loadHistorico").

Definition clearFiles : Proc unit := act (update (setFiles [])).

Section UploadPage.

(** Modelled from the spec: [UPLOAD_DELAY_MS] of [src/config] is not among
    the sources; it is the externally configured delay between two uploads,
    in milliseconds, and may be zero. *)
Variable UPLOAD_DELAY_MS : N.

(** The props and the state a render of the page closes over. *)
Variable token : option string.
Variable onLogout : option (Proc unit).
Variable docType : option DocType.
Variable files : list File.t.

Definition startUpload : Proc unit :=
  if negb (Js.truthy token) then act (alert "Sesión caducada. Inicia sesión de nuevo.")
  else if negb (bool_decide (is_Some docType)) then act (alert "Selecciona si es Factura o Venta")
  else if bool_decide (length files = 0%nat) then act (alert "Selecciona al menos un archivo")
  else act (update (setShowConfirm true)).

Definition upload_failure (file : File.t) (t : string) : string :=
  "Fallo subiendo " +:+ File.name file +:+ ": " +:+ t.

(** The body of the [for] loop of [confirmUpload], at index [i] with
    [file = files[i]]; the first branch ends in [continue]. *)
Definition upload_one (i : nat) (file : File.t) : Proc unit :=
  act (update (setUploadingIndex (Some i)));;
  let fd := [ ("file", FormFile file);
              ("tipo", FormText (from_option DocType_string "null" docType)) ] in
  res ← fetchWithAuth "/api/upload/"
          (Options.mk (Js.or_undefined token) onLogout (Some "POST") [] (FormData fd));
  if negb (Response.ok res) then
    let t := Response.text res in
    act (console "error" ["Fallo subiendo " +:+ File.name file +:+ ":"; t]);;
    act (alert (upload_failure file t))
  else
    loadHistorico;;
    if 0 <? UPLOAD_DELAY_MS then sleep UPLOAD_DELAY_MS else mret tt.

(** [for (let i = ...; i < files.length; i++)], with [rest] the files from
    index [i] on. *)
Fixpoint upload_from (i : nat) (rest : list File.t) : Proc unit :=
  match rest with
  | [] => mret tt
  | file :: rest' => upload_one i file;; upload_from (S i) rest'
  end.

Definition confirmUpload : Proc unit :=
  if negb (Js.truthy token) || negb (bool_decide (is_Some docType))
     || bool_decide (length files = 0%nat)
  then mret tt
  else
    act (update (setUploading true));;
    act (update (setUploadingIndex (Some 0%nat)));;
    try_finally
      (try_catch
         (upload_from 0 files;;
          act (update (setShowConfirm false));;
          clearFiles;;
          act (update (setShowSuccess true)))
         (λ err, act (alert ("Error subiendo archivos: " +:+ err))))
      (act (update (setUploading false));;
       act (update (setUploadingIndex None))).

Definition quote : string := String (ascii_of_N 34) EmptyString.

(** [JSON.stringify({ tipo })] *)
Definition retry_body (op : Operacion.t) : string :=
  let tipo := if bool_decide (Operacion.tipo op = FACTURA) then "factura" else "venta" in
  "{" +:+ quote +:+ "tipo" +:+ quote +:+ ":" +:+ quote +:+ tipo +:+ quote +:+ "}".

(** [console] calls keep their string arguments; objects and numbers are
    left out. *)
Definition retryWebhook (op : Operacion.t) : Proc unit :=
  if negb (Js.truthy token) then act (alert "Sesión caducada")
  else
    act (update (setRetryingId (Some (Operacion.id op))));;
    act (console "info" ["🔁 Reintentando webhook para:"]);;
    try_finally
      (try_catch
         (r ← fetchWithAuth ("/api/upload/" +:+ Operacion.id op +:+ "/retry")
                (Options.mk (Js.or_undefined token) onLogout (Some "POST")
                   [("Content-Type", "application/json")] (TextBody (retry_body op)));
          act (console "info" ["📡 Respuesta backend (status):"]);;
          if negb (Response.ok r) then
            let errText := Response.text r in
            act (console "error" ["❌ Error en retryWebhook:"; errText]);;
            Throw errText
          else
            match Response.json_error r with
            | Some e => Throw e
            | None =>
                act (console "info" ["✅ Respuesta JSON backend:"]);;
                loadHistorico
            end)
         (λ e,
            act (console "error" ["⚠️ No se pudo reintentar:"; e]);;
            act (alert ("No se pudo reintentar: " +:+ e))))
      (act (update (setRetryingId None));;
       act (console "info" ["🔚 Finalizó retryWebhook para:"; Operacion.id op])).

End UploadPage.

(** *** What the page renders *)

(** The success modal: its heading, text and button, when shown. *)
Definition success_modal (p : Page.t) : option (list string) :=
  if Page.showSuccess p then
    let s := if bool_decide (1 < length (Page.files p))%nat then "s" else "" in
    Some [ "✅ Archivo" +:+ s +:+ " subido" +:+ s +:+ " correctamente";
           "Tus archivos se han guardado y serán procesados en breve.";
           "Cerrar" ]
  else None.

(** The last cell of a row of the history table. *)
Inductive Cell : Type :=
| RetryButton (disabled : bool) (label : string)
| Dash.

Definition retry_cell (p : Page.t) (op : Operacion.t) : Cell :=
  if bool_decide (Operacion.status op = Some FAILED) then
    let retrying := bool_decide (Page.retryingId p = Some (Operacion.id op)) in
    RetryButton retrying (if retrying then "Reintentando…" else "Reintentar")
  else Dash.

(** ** Interleaved execution

    A call of an asynchronous function runs synchronously up to its first
    suspension point; what remains waits for the network (or for a timer)
    while the page keeps reacting to the user. *)

Inductive Paused (A : Type) : Type :=
| Finished (r : Result A)
| AwaitingFetch (k : Settled → Proc A)
| AwaitingTimer (k : Proc A).

Arguments Finished {A} r.
Arguments AwaitingFetch {A} k.
Arguments AwaitingTimer {A} k.

Fixpoint run_sync {A : Type} (p : Proc A) (w : World) : Paused A * World :=
  match p with
  | Ret a => (Finished (Returned a), w)
  | Throw e => (Finished (Threw e), w)
  | Act a k => run_sync k (perform a w)
  | Fetch r k => (AwaitingFetch k, record (Requested r) w)
  | Sleep ms k => (AwaitingTimer k, record (Slept ms) w)
  end.

Module Retry.

(** The page together with the retries whose request is still unanswered:
    the id of the record and the rest of its [retryWebhook] call. *)
Record Config : Type := mkConfig {
  world : World;
  pending : list (string * (Settled → Proc unit))
}.

Inductive Input : Type :=
| Click (op : Operacion.t)            (* the user clicks the retry button of a row *)
| Settle (n : nat) (s : Settled).     (* the n-th unanswered request is settled *)

(** Whether a click on the row of [op] reaches [retryWebhook]: the row is
    in the table, and its button is shown and not disabled. *)
Definition can_start (c : Config) (op : Operacion.t) : bool :=
  bool_decide (op ∈ Page.ops (ui (world c)))
  && match retry_cell (ui (world c)) op with
     | RetryButton disabled _ => negb disabled
     | Dash => false
     end.

(** The page is rendered by [App] with the current token and
    [handleLogout]. *)
Definition click (op : Operacion.t) (c : Config) : Config :=
  let w := world c in
  if can_start c op then
    match run_sync (retryWebhook (App.token (app w)) (Some handleLogout) op) w with
    | (AwaitingFetch k, w') => mkConfig w' (pending c ++ [(Operacion.id op, k)])
    | (_, w') => mkConfig w' (pending c)
    end
  else c.

Definition settle (n : nat) (s : Settled) (c : Config) : Config :=
  match pending c !! n with
  | Some (id, k) =>
      match run_sync (k s) (record (Answered s) (world c)) with
      | (AwaitingFetch k', w') => mkConfig w' (<[n := (id, k')]> (pending c))
      | (_, w') => mkConfig w' (delete n (pending c))
      end
  | None => c
  end.

Definition step (c : Config) (i : Input) : Config :=
  match i with
  | Click op => click op c
  | Settle n s => settle n s c
  end.

Definition run (inputs : list Input) (c : Config) : Config := foldl step c inputs.

(** The ids of the records whose retry is in flight. *)
Definition in_flight (c : Config) : list string := fst <$> pending c.

End Retry.

(** ** Reading traces *)

Definition requests (tr : list Event) : list Request.t :=
  omap (λ e, match e with Requested r => Some r | _ => None end) tr.

(** The file carried by an upload request. *)
Definition uploaded_file (r : Request.t) : option File.t :=
  match Request.body r with
  | FormData (("file", FormFile f) :: _) =>
      if String.eqb (Request.url r) "/api/upload/" then Some f else None
  | _ => None
  end.

(** The files sent to the intake endpoint, in the order of the requests. *)
Definition sent_files (tr : list Event) : list File.t :=
  omap (λ e, match e with Requested r => uploaded_file r | _ => None end) tr.

(** Whether a request is in flight at the end of a trace, given whether one
    is at its start; [None] when the trace issues a request while another
    one is unanswered (or answers a request that was never issued). *)
Fixpoint in_flight_after (busy : bool) (tr : list Event) : option bool :=
  match tr with
  | [] => Some busy
  | Requested _ :: tr' => if busy then None else in_flight_after true tr'
  | Answered _ :: tr' => if busy then in_flight_after false tr' else None
  | _ :: tr' => in_flight_after busy tr'
  end.


(** The rejections of a trace; no request of the trace was rejected when
    there is none (each request got a response). *)
Definition rejections (tr : list Event) : list string :=
  omap (λ e, match e with Answered (Rejected message) => Some message | _ => None end) tr.


(** What happens from the start of a trace up to the next request. *)
Fixpoint before_next_request (tr : list Event) : list Event :=
  match tr with
  | [] => []
  | Requested _ :: _ => []
  | e :: tr' => e :: before_next_request tr'
  end.

(** Every answered request of a trace, with its answer and with what
    followed the answer up to the next request. *)
Record Exchange : Type := mkExchange {
  request : Request.t;
  answer : Settled;
  followed_by : list Event
}.

Fixpoint exchanges (tr : list Event) : list Exchange :=
  match tr with
  | [] => []
  | Requested r :: tr' =>
      match tr' with
      | Answered s :: tr'' =>
          mkExchange r s (before_next_request tr'') :: exchanges tr''
      | _ => exchanges tr'
      end
  | _ :: tr' => exchanges tr'
  end.

Definition answered_ok (s : Settled) : bool :=
  match s with
  | Fulfilled r => Response.ok r
  | Rejected _ => false
  end.

(** The delays of a piece of trace. *)
Definition sleeps (tr : list Event) : list N :=
  omap (λ e, match e with Slept ms => Some ms | _ => None end) tr.

Definition alerts (tr : list Event) : list string :=
  omap (λ e, match e with Did (alert m) => Some m | _ => None end) tr.

Definition calls (tr : list Event) : list string :=
  omap (λ e, match e with Did (call c) => Some c | _ => None end) tr.

(** ** The trace of a batch

    What [confirmUpload] is expected to add to the trace; the section on the
    controller below proves that it does. *)

Section BatchTrace.

Variable UPLOAD_DELAY_MS : N.
Variable token : option string.
Variable onLogout : option (Proc unit).
Variable docType : option DocType.

(** The request of the loop for [file]. *)
Definition upload_request (file : File.t) : Request.t :=
  gateway_request "/api/upload/"
    (Options.mk (Js.or_undefined token) onLogout (Some "POST") []
       (FormData [ ("file", FormFile file);
                   ("tipo", FormText (from_option DocType_string "null" docType)) ])).

(** The events of one iteration: what follows the answer, and the whole of
    it. *)
Definition after_answer (file : File.t) (s : Settled) : list Event :=
  match s with
  | Rejected _ => []
  | Fulfilled res =>
      (if (Response.status res =? 401) && bool_decide (is_Some onLogout)
       then [ Did (alert expired_notice); Did (call "onLogout");
              Did (update (setToken None)); Did (update (setPage "dashboard")) ]
       else [])
      ++
      (if Response.ok res
       then Did (detach "loadHistorico")
            :: (if 0 <? UPLOAD_DELAY_MS then [Slept UPLOAD_DELAY_MS] else [])
       else [ Did (console "error"
                     ["Fallo subiendo " +:+ File.name file +:+ ":"; Response.text res]);
              Did (alert (upload_failure file (Response.text res))) ])
  end.

Definition iteration (i : nat) (file : File.t) (s : Settled) : list Event :=
  [ Did (update (setUploadingIndex (Some i)));
    Requested (upload_request file);
    Answered s ] ++ after_answer file s.

(** The events of the loop over [rest] from index [i] when its requests are
    settled by [answers], in turn; a rejected request ends the loop. *)
Fixpoint loop_events (i : nat) (rest : list File.t) (answers : list Settled) : list Event :=
  match rest, answers with
  | file :: rest', s :: answers' =>
      iteration i file s ++
      match s with
      | Fulfilled _ => loop_events (S i) rest' answers'
      | Rejected _ => []
      end
  | _, _ => []
  end.

(** What [confirmUpload] does after the loop, depending on how it ended. *)
Definition completion (r : Result unit) : list Event :=
  match r with
  | Returned _ =>
      [ Did (update (setShowConfirm false)); Did (update (setFiles []));
        Did (update (setShowSuccess true)) ]
  | Threw e => [ Did (alert ("Error subiendo archivos: " +:+ e)) ]
  end
  ++ [ Did (update (setUploading false)); Did (update (setUploadingIndex None)) ].

End BatchTrace.

(** How the requests of a loop over [rest] get settled: one answer per
    file, up to the first rejection, which is thrown. *)
Inductive settles : list File.t → list Settled → Result unit → Prop :=
| settles_done : settles [] [] (Returned tt)
| settles_answered file rest res answers r :
    settles rest answers r →
    settles (file :: rest) (Fulfilled res :: answers) r
| settles_rejected file rest e :
    settles (file :: rest) [Rejected e] (Threw e).

(** ** Sample data *)

Module Sample.

Definition a_pdf : File.t := File.mk "a.pdf" 100 "application/pdf" "%PDF-a".
Definition b_xlsx : File.t :=
  File.mk "b.xlsx" 200
    "application/vnd.openxmlformats-officedocument.spreadsheetml.sheet" "PK-b".
Definition ok_pdf : File.t := File.mk "ok.pdf" 10 "application/pdf" "%PDF-ok".
Definition report_docx : File.t :=
  File.mk "report.docx" 20
    "application/vnd.openxmlformats-officedocument.wordprocessingml.document" "PK-r".

(** A network that settles the n-th request of a run with the n-th entry
    of a script, and rejects the requests beyond the script. *)
Definition scripted (script : list Settled) : Network :=
  λ tr _, default (Rejected "Failed to fetch") (script !! length (requests tr)).

Definition status_only (status : N) : Settled :=
  Fulfilled (Response.mk status ("HTTP " +:+ pretty status) None).

Definition session : App.t := App.mk (Some "t0k3n") "upload".

Definition page (files : list File.t) : Page.t :=
  Page.mk (Some factura) files true false None None false [].

Definition world (files : list File.t) : World := mkWorld session (page files) [].

Definition queue : list File.t := [a_pdf; b_xlsx].

(** The batch of Scenario A, with the given delay and the given statuses of
    the two responses. *)
Definition token : option string := App.token session.
Definition onLogout : option (Proc unit) := Some handleLogout.
Definition docType : option DocType := Some factura.

Definition answers (first second : N) : Network :=
  scripted [status_only first; status_only second].

Definition batch (delay : N) (first second : N) : Result unit * World :=
  exec (answers first second) (confirmUpload delay token onLogout docType queue) (world queue).

Definition batch_events (delay : N) (first second : N) : list Event :=
  events_since (world queue) (batch delay first second).2.

(** Two records of the history whose processing failed. *)
Definition op42 : Operacion.t :=
  Operacion.mk "42" "2025-01-10T09:00:00" FACTURA "a.pdf" "" (Some 100) None (Some FAILED).
Definition op43 : Operacion.t :=
  Operacion.mk "43" "2025-01-10T09:05:00" VENTA "b.xlsx" "" (Some 200) None (Some FAILED).

Definition history : Retry.Config :=
  Retry.mkConfig
    (mkWorld session (Page.mk None [] false false None None false [op42; op43]) [])
    [].

End Sample.

(** ** Further code of the application *)

(** Two worlds with the same page, up to the index of the file being
    uploaded. *)
Definition same_page (w w' : World) : Prop :=
  Page.docType (ui w') = Page.docType (ui w)
  ∧ Page.files (ui w') = Page.files (ui w)
  ∧ Page.showConfirm (ui w') = Page.showConfirm (ui w)
  ∧ Page.uploading (ui w') = Page.uploading (ui w)
  ∧ Page.retryingId (ui w') = Page.retryingId (ui w)
  ∧ Page.showSuccess (ui w') = Page.showSuccess (ui w)
  ∧ Page.ops (ui w') = Page.ops (ui w).

(** The history refreshes a piece of trace starts. *)
Definition refreshes (tr : list Event) : list string :=
  omap (λ e, match e with Did (detach chain) => Some chain | _ => None end) tr.

(** The world [confirmUpload] leaves, from the world [w1] at the end of its
    loop: the statements after the loop or the [catch], then the
    [finally]. *)
Definition after_loop (r : Result unit) (w1 : World) : World :=
  let w2 :=
    match r with
    | Returned _ =>
        perform (update (setShowSuccess true))
          (perform (update (setFiles []))
             (perform (update (setShowConfirm false)) w1))
    | Threw e => perform (alert ("Error subiendo archivos: " +:+ e)) w1
    end in
  perform (update (setUploadingIndex None)) (perform (update (setUploading false)) w2).

(** A batch over the sample queue on a scripted network. *)
Definition scripted_batch (delay : N) (script : list Settled) : Result unit * World :=
  exec (Sample.scripted script)
    (confirmUpload delay Sample.token Sample.onLogout Sample.docType Sample.queue)
    (Sample.world Sample.queue).

(** *** Observing a retry *)

(** The request [retryWebhook] makes for a record. *)
Definition retry_request (token : option string) (onLogout : option (Proc unit))
    (op : Operacion.t) : Request.t :=
  gateway_request ("/api/upload/" +:+ Operacion.id op +:+ "/retry")
    (Options.mk (Js.or_undefined token) onLogout (Some "POST")
       [("Content-Type", "application/json")] (TextBody (retry_body op))).

(** Why a retry failed, if it did: the rejection of the request, the body of
    a non-success response, or the error of parsing a success response. *)
Definition retry_failure (s : Settled) : option string :=
  match s with
  | Rejected message => Some message
  | Fulfilled r => if Response.ok r then Response.json_error r else Some (Response.text r)
  end.

(** A suspended retry resumes well when, however its request is settled, it
    runs to its end without suspending again and leaves [retryingId] reset. *)
Definition retry_resumes (k : Settled → Proc unit) : Prop :=
  ∀ s w, ∃ r w', run_sync (k s) w = (Finished r, w') ∧ Page.retryingId (ui w') = None.

(** The page agrees with the retries in flight: whenever [retryingId] names a
    record, a retry of that record is in flight. *)
Definition retry_consistent (c : Retry.Config) : Prop :=
  Forall (λ p, retry_resumes p.2) (Retry.pending c)
  ∧ ∀ id, Page.retryingId (ui (Retry.world c)) = Some id → id ∈ Retry.in_flight c.

(** ** The session monitor ([App.tsx]) *)

(** The probe both checks send through the gateway. *)
Definition me_options (token : option string) : Options.t :=
  Options.mk token (Some handleLogout) None [] NoBody.

(** The [try]/[catch] of a check; [label] is what is logged with a network
    error.  Both branches of [if (!response.ok)] just return. *)
Definition session_check (label : string) (token : option string) : Proc unit :=
  try_catch
    (response ← fetchWithAuth "http://localhost:8000/auth/me" (me_options token);
     if negb (Response.ok response) then mret tt else mret tt)
    (λ error, act (console "error" [label; error]);; handleLogout).

(** The callback of [setInterval], every five minutes. *)
Definition periodicCheck (token : option string) : Proc unit :=
  session_check "Error verificando token periódicamente:" token.

(** [App] with its [checkingToken] flag. *)
Module Shell.
Record t : Type := mk {
  world : World;
  checkingToken : bool
}.
End Shell.

(** [verifyToken()], run to its end: [setCheckingToken(true)], the check,
    and [setCheckingToken(false)] in the [finally]. *)
Definition verifyToken (net : Network) (s : Shell.t) : Shell.t :=
  let token := App.token (app (Shell.world s)) in
  let s1 := Shell.mk (Shell.world s) true in
  let out := exec net (session_check "Error verificando token:" token) (Shell.world s1) in
  Shell.mk out.2 false.

(** The effect on a change of token or page: [if (!token) return]. *)
Definition verify_on_change (net : Network) (s : Shell.t) : Shell.t :=
  if negb (Js.truthy (App.token (app (Shell.world s)))) then s else verifyToken net s.

(** What [App] renders. *)
Inductive View : Type :=
| LoginView
| VerifyingView             (* "Verificando sesión..." *)
| PageView (page : string).

Definition App_render (s : Shell.t) : View :=
  if negb (Js.truthy (App.token (app (Shell.world s)))) then LoginView
  else if Shell.checkingToken s then VerifyingView
  else PageView (App.page (app (Shell.world s))).

(** Whether the answer to the probe ends the session: a network failure, or
    the status 401. *)
Definition ends_session (s : Settled) : bool :=
  match s with
  | Rejected _ => true
  | Fulfilled r => Response.status r =? 401
  end.

Definition state_updates (tr : list Event) : list StateUpdate :=
  omap (λ e, match e with Did (update u) => Some u | _ => None end) tr.

(** ** The history refresh ([UploadPage.tsx], the chain of [loadHistorico]) *)

(** The state the chain writes: the records shown and the error line. *)
Module History.
Record t : Type := mk {
  ops : list Operacion.t;
  opsError : option string
}.
End History.

Inductive HistoryUpdate : Type :=
| setOps (items : list Operacion.t)
| setOpsError (message : string).

Definition apply_history (u : HistoryUpdate) (h : History.t) : History.t :=
  match u with
  | setOps items => History.mk items (History.opsError h)
  | setOpsError message => History.mk (History.ops h) (Some message)
  end.

(** What [await r.json()] yields for a body that parses: the JSON [null],
    or a value whose [items] is [None] when missing or falsy. *)
Inductive Parsed : Type :=
| JsonNull
| JsonData (items : option (list Operacion.t)).

Definition historico_options (token : option string) (onLogout : option (Proc unit))
  : Options.t :=
  Options.mk (Js.or_undefined token) onLogout None [] NoBody.

Section Historico.

(** The decoding of a body is the platform's. *)
Variable json : Response.t → Parsed.

(** [(r) => r.ok ? r.json() : Promise.reject("Error cargando histórico")]:
    [inl reason] is a rejection whose reason is a string; a thrown [Error]
    is a [Throw]. *)
Definition historico_decode (r : Response.t) : Proc (string + Parsed) :=
  if Response.ok r then
    match Response.json_error r with
    | Some e => Throw e
    | None => mret (inr (json r))
    end
  else mret (inl "Error cargando histórico").

(** [(data) => { console.debug(...); setOps(data.items || []) }]; reading
    [items] of [null] throws a [TypeError]. *)
Definition historico_store (data : Parsed) : Proc HistoryUpdate :=
  act (console "debug" ["Respuesta /api/uploads/historico:"]);;
  match data with
  | JsonNull => Throw "TypeError: Cannot read properties of null (reading 'items')"
  | JsonData items => mret (setOps (default [] items))
  end.

(** The chain: a string reason skips the second [then] and reaches the
    [catch] with [typeof e === "string"]; every [Error] is reported as
    "Error desconocido". *)
Definition historico_chain (token : option string) (onLogout : option (Proc unit))
  : Proc HistoryUpdate :=
  try_catch
    (r ← fetchWithAuth "http://localhost:8000/api/uploads/historico?limit=20"
           (historico_options token onLogout);
     x ← historico_decode r;
     match x with
     | inl reason => mret (setOpsError reason)
     | inr data => historico_store data
     end)
    (λ _, mret (setOpsError "Error desconocido")).

End Historico.

(** ** The manual invoice form ([UploadPage.tsx]) *)

Module ManualForm.
Record t : Type := mk {
  fecha : string;
  proveedor : string;
  total : string;
  categoria : string;
  importe_sin_iva_local : string;
  iva_local : string;
  total_moneda_local : string;
  moneda : string;
  tarifa_cambio : string;
  importe_sin_iva_euro : string;
  importe_total_euro : string;
  pais_origen : string;
  notas : string;
  descripcion : string;
  id_ext : string;
  fecha_dt : string;
  supplier_vat_number : string;
  ubicacion_factura : string
}.
End ManualForm.

(** [if (value) fd.append(name, value)] *)
Definition append_if (name value : string) : list (string * FormValue) :=
  if Js.truthy (Some value) then [(name, FormText value)] else [].

(** The [FormData] of [handleManualSubmit]; [s || ""] is [s] for a
    string. *)
Definition manual_payload (form : ManualForm.t) (manualFile : option File.t)
  : list (string * FormValue) :=
  ("fecha", FormText (ManualForm.fecha form))
  :: ("fecha_dt", FormText (ManualForm.fecha_dt form))
  :: ("proveedor", FormText (ManualForm.proveedor form))
  :: ("importe_sin_iva_local", FormText (ManualForm.importe_sin_iva_local form))
  :: ("iva_local", FormText (ManualForm.iva_local form))
  :: (append_if "supplier_vat_number" (ManualForm.supplier_vat_number form)
      ++ append_if "total_moneda_local" (ManualForm.total_moneda_local form)
      ++ append_if "moneda" (ManualForm.moneda form)
      ++ append_if "tarifa_cambio" (ManualForm.tarifa_cambio form)
      ++ append_if "importe_sin_iva_euro" (ManualForm.importe_sin_iva_euro form)
      ++ append_if "importe_total_euro" (ManualForm.importe_total_euro form)
      ++ append_if "pais_origen" (ManualForm.pais_origen form)
      ++ append_if "id_ext" (ManualForm.id_ext form)
      ++ append_if "notas" (ManualForm.notas form)
      ++ append_if "descripcion" (ManualForm.descripcion form)
      ++ append_if "categoria" (ManualForm.categoria form)
      ++ match manualFile with
         | Some f => [("file", FormFile f)]
         | None => []
         end).

(** The test on the required fields. *)
Definition manual_incomplete (form : ManualForm.t) : bool :=
  negb (Js.truthy (Some (ManualForm.fecha_dt form)))
  || negb (Js.truthy (Some (ManualForm.proveedor form)))
  || negb (Js.truthy (Some (ManualForm.importe_sin_iva_local form)))
  || negb (Js.truthy (Some (ManualForm.iva_local form))).

Definition manual_options (token : option string) (onLogout : option (Proc unit))
    (form : ManualForm.t) (manualFile : option File.t) : Options.t :=
  Options.mk (Js.or_undefined token) onLogout (Some "POST") []
    (FormData (manual_payload form manualFile)).

(** [handleManualSubmit].  The state of the modal ([showManualModal],
    [manualForm], [manualFile]) is not part of the page state above: the
    handler returns [true] when it runs the three updates that close the
    modal and reset the form, just before [setShowSuccess(true)], and
    [false] otherwise. *)
Definition handleManualSubmit (token : option string) (onLogout : option (Proc unit))
    (docType : option DocType) (form : ManualForm.t) (manualFile : option File.t)
  : Proc bool :=
  if negb (bool_decide (is_Some docType)) then
    act (alert "Falta el tipo (Factura/Venta).");; mret false
  else if negb (Js.truthy token) then
    act (alert "Sesión caducada. Inicia sesión de nuevo.");; mret false
  else if manual_incomplete form then
    act (alert "Por favor, completa todos los campos obligatorios (marcados con *)");;
    mret false
  else
    act (update (setUploading true));;
    try_finally
      (try_catch
         (res ← fetchWithAuth "/api/facturas/manual"
                  (manual_options token onLogout form manualFile);
          if negb (Response.ok res) then
            let errorText := Response.text res in
            act (console "error" ["Error guardando factura manual:"; errorText]);;
            act (alert ("Error guardando factura: " +:+ errorText));;
            mret false
          else
            match Response.json_error res with
            | Some e => Throw e
            | None =>
                act (console "log" ["✅ Factura manual guardada:"]);;
                (if bool_decide (is_Some manualFile) then loadHistorico else mret tt);;
                act (update (setShowSuccess true));;
                mret true
            end)
         (λ err,
            act (console "error" ["Error en handleManualSubmit:"; err]);;
            act (alert ("Error guardando factura: " +:+ err));;
            mret false))
      (act (update (setUploading false))).

(* ===================================================================== *)
(** * Properties *)
(* ===================================================================== *)

(** ** Upload queue builder *)

Section QueueBuilder.

Implicit Types (f c d : File.t) (q files candidates : list File.t).

Lemma same_file_key d f : same_file d f = true ↔ File.key d = File.key f.
Proof.
  unfold same_file, File.key.
  rewrite andb_true_iff, String.eqb_eq, N.eqb_eq.
  split; [intros [-> ->]; done | intros [= -> ->]; done].
Qed.

Lemma some_same_key q f : some_same q f = true ↔ File.key f ∈ File.key <$> q.
Proof.
  unfold some_same. rewrite existsb_exists, list_elem_of_fmap.
  split.
  - intros (d & Hd%list_elem_of_In & Hs%same_file_key). eauto.
  - intros (d & Hk & Hd%list_elem_of_In). exists d. by rewrite same_file_key.
Qed.

Lemma some_same_false q f : some_same q f = false ↔ File.key f ∉ File.key <$> q.
Proof.
  rewrite <- some_same_key. destruct (some_same q f); split; congruence.
Qed.

Lemma push_new_no_duplicates valid q :
  no_duplicates q → no_duplicates (push_new q valid).
Proof.
  unfold no_duplicates. revert q.
  induction valid as [|f valid IH]; intros q Hq; simpl; [done|].
  apply IH. destruct (some_same q f) eqn:E; [done|].
  rewrite fmap_app. apply NoDup_app. split_and!; [done| |apply NoDup_singleton].
  intros k Hk ->%list_elem_of_singleton. by apply some_same_false in E.
Qed.

(** The loop only ever extends the queue at its end, by candidates. *)
Lemma push_new_extends valid q :
  ∃ added, push_new q valid = q ++ added ∧ added `sublist_of` valid.
Proof.
  revert q. induction valid as [|f valid IH]; intros q; simpl.
  - exists []. by rewrite app_nil_r.
  - destruct (some_same q f).
    + destruct (IH q) as (added & -> & Hs). exists added. split; [done|].
      by apply sublist_cons.
    + destruct (IH (q ++ [f])) as (added & -> & Hs). exists (f :: added).
      rewrite <- app_assoc. split; [done|]. by apply sublist_skip.
Qed.

Lemma push_new_keeps_keys valid q k :
  k ∈ File.key <$> q → k ∈ File.key <$> push_new q valid.
Proof.
  destruct (push_new_extends valid q) as (added & -> & _).
  rewrite fmap_app, elem_of_app. auto.
Qed.

Lemma push_new_covers valid q f :
  f ∈ valid → File.key f ∈ File.key <$> push_new q valid.
Proof.
  revert q. induction valid as [|g valid IH]; intros q; [by intros ?%elem_of_nil|].
  intros [Heq|Hin]%elem_of_cons; simpl; [subst g|by apply IH].
  apply push_new_keeps_keys. destruct (some_same q f) eqn:E.
  - by apply some_same_key.
  - rewrite fmap_app, elem_of_app. right. apply list_elem_of_singleton. done.
Qed.

Lemma push_new_present valid q :
  (∀ f, f ∈ valid → File.key f ∈ File.key <$> q) → push_new q valid = q.
Proof.
  revert q. induction valid as [|f valid IH]; intros q Hall; simpl; [done|].
  assert (some_same q f = true) as ->.
  { apply some_same_key, Hall. by left. }
  apply IH. intros g Hg. apply Hall. by right.
Qed.

Lemma valid_length candidates :
  length (filter (λ f, isAllowed f = true) candidates) ≠ length candidates
  ↔ ∃ c, c ∈ candidates ∧ isAllowed c = false.
Proof.
  induction candidates as [|c cs IH].
  - split; [done | by intros (c & ?%elem_of_nil & _)].
  - rewrite filter_cons. destruct (decide (isAllowed c = true)) as [Ha|Ha].
    + simpl. split.
      * intros Hne. destruct (proj1 IH) as (d & Hd & Hf); [lia|].
        exists d. split; [by right | done].
      * intros (d & [->|Hd]%elem_of_cons & Hf); [congruence|].
        assert (length (filter (λ f, isAllowed f = true) cs) ≠ length cs)
          by (apply IH; eauto).
        lia.
    + split.
      * intros _. exists c. split; [by left | by destruct (isAllowed c)].
      * intros _. pose proof (length_filter (λ f, isAllowed f = true) cs).
        simpl. lia.
Qed.

Lemma addFiles_notice_free files candidates :
  (∀ c, c ∈ candidates → isAllowed c = true) → (addFiles files candidates).1 = [].
Proof.
  intros Hall. simpl. rewrite bool_decide_eq_false_2; [done|].
  rewrite valid_length. intros (c & Hc & Hf). specialize (Hall c Hc). congruence.
Qed.

End QueueBuilder.


(** The extension is compared without regard to case, and only at the end
    of the name; the MIME type alone is enough. *)
Example isAllowed_by_extension :
  isAllowed (File.mk "REPORT.PDF" 1 "" "") = true
  ∧ isAllowed (File.mk "Ventas.XLSX" 1 "application/octet-stream" "") = true
  ∧ isAllowed (File.mk "scan" 1 "application/pdf" "") = true
  ∧ isAllowed (File.mk "report.pdf.exe" 1 "" "") = false
  ∧ isAllowed Sample.report_docx = false.
Proof. by vm_compute. Qed.

(** Scenario E: "report.docx" next to "ok.pdf". *)
Example addFiles_scenario_E :
  addFiles [] [Sample.report_docx; Sample.ok_pdf] = ([ignored_notice], [Sample.ok_pdf]).
Proof. reflexivity. Qed.

(** C9. From a queue without two entries of the same (name, size),
    [addFiles] and [removeFile] lead to such a queue again; candidates whose
    (name, size) is already in the queue leave it unchanged, and raise no
    notice when they are valid files. *)
Theorem queue_never_duplicates (files : list File.t) :
  no_duplicates files →
  (∀ candidates, no_duplicates (addFiles files candidates).2) ∧
  (∀ name size, no_duplicates (removeFile name size files)) ∧
  (∀ candidates,
      (∀ c, c ∈ candidates → File.key c ∈ File.key <$> files) →
      (addFiles files candidates).2 = files ∧
      ((∀ c, c ∈ candidates → isAllowed c = true) →
       (addFiles files candidates).1 = [])).
Proof.
  intros Hq. split_and!.
  - intros candidates. by apply push_new_no_duplicates.
  - intros name size. unfold no_duplicates, removeFile.
    eapply sublist_NoDup; [exact Hq|]. apply fmap_sublist, sublist_filter.
  - intros candidates Hpresent. split.
    + simpl. apply push_new_present. intros f [_ Hf]%list_elem_of_filter. auto.
    + intros Hall. by apply addFiles_notice_free.
Qed.

Lemma queue_never_duplicates_witness :
  no_duplicates [Sample.a_pdf; Sample.b_xlsx] ∧
  no_duplicates (addFiles [Sample.a_pdf; Sample.b_xlsx] [Sample.a_pdf; Sample.ok_pdf]).2.
Proof.
  assert (H : no_duplicates [Sample.a_pdf; Sample.b_xlsx]).
  { unfold no_duplicates. apply (bool_decide_unpack _). vm_compute. exact I. }
  split; [exact H|]. apply (queue_never_duplicates _ H).
Defined.

(** ** Running computations *)

Section Exec.

Context (net : Network).

Lemma exec_bind {A B} (p : Proc A) (f : A → Proc B) w :
  exec net (p ≫= f) w =
    match exec net p w with
    | (Returned a, w') => exec net (f a) w'
    | (Threw e, w') => (Threw e, w')
    end.
Proof.
  unfold mbind, Proc_bind. revert w.
  induction p as [a|e|a k IH|r k IH|ms k IH]; intros w; simpl; auto.
Qed.

Lemma exec_try_catch {A} (p : Proc A) h w :
  exec net (try_catch p h) w =
    match exec net p w with
    | (Returned a, w') => (Returned a, w')
    | (Threw e, w') => exec net (h e) w'
    end.
Proof.
  revert w. induction p as [a|e|a k IH|r k IH|ms k IH]; intros w; simpl; auto.
Qed.

Lemma exec_try_finally {A} (p : Proc A) fin w :
  exec net (try_finally p fin) w =
    match exec net p w with
    | (Returned a, w') => exec net (fin;; mret a) w'
    | (Threw e, w') => exec net (fin;; Throw e) w'
    end.
Proof.
  revert w. induction p as [a|e|a k IH|r k IH|ms k IH]; intros w; simpl; auto.
Qed.

Lemma exec_act a w : exec net (act a) w = (Returned tt, perform a w).
Proof. reflexivity. Qed.

Lemma exec_mret {A} (a : A) w : exec net (mret a) w = (Returned a, w).
Proof. reflexivity. Qed.

(** The gateway, case by case. *)
Lemma exec_fetchWithAuth url options w :
  let r := gateway_request url options in
  let s := net (trace w) r in
  let w1 := record (Answered s) (record (Requested r) w) in
  exec net (fetchWithAuth url options) w =
    match s with
    | Rejected e => (Threw e, w1)
    | Fulfilled response =>
        match Response.status response =? 401, Options.onLogout options with
        | true, Some onLogout =>
            let w2 := perform (call "onLogout") (perform (alert expired_notice) w1) in
            match exec net onLogout w2 with
            | (Returned _, w3) => (Returned response, w3)
            | (Threw e, w3) => (Threw e, w3)
            end
        | _, _ => (Returned response, w1)
        end
    end.
Proof.
  intros r s w1. unfold fetchWithAuth. rewrite exec_bind. simpl.
  fold r. fold s. fold w1. destruct s as [response|e]; simpl; [|done].
  destruct (Response.status response =? 401); [|done].
  destruct (Options.onLogout options) as [onLogout|]; [|done].
  simpl. rewrite exec_bind. by destruct (exec net onLogout _) as [[[]|e] w3].
Qed.

End Exec.

Lemma events_since_app w w' tr : trace w' = trace w ++ tr → events_since w w' = tr.
Proof. unfold events_since. intros ->. by rewrite drop_app_length. Qed.

Lemma record_trace e w : trace (record e w) = trace w ++ [e].
Proof. reflexivity. Qed.

Lemma perform_trace a w : trace (perform a w) = trace w ++ [Did a].
Proof. destruct a as [| |u| |]; try reflexivity. by destruct u. Qed.

Lemma perform_alert m w : perform (alert m) w = record (Did (alert m)) w.
Proof. reflexivity. Qed.


(** ** The credentialed request gateway *)






(** The retry request: the caller's [Content-Type] next to the credential. *)
Example retry_request_headers :
  let r := gateway_request "/api/upload/42/retry"
             (Options.mk (Some "t0k3n") (Some handleLogout) (Some "POST")
                [("Content-Type", "application/json")] (TextBody (retry_body Sample.op42))) in
  Headers.get "authorization" (Request.headers r) = Some "Bearer t0k3n"
  ∧ Headers.get "content-type" (Request.headers r) = Some "application/json"
  ∧ Request.body r = TextBody ("{" +:+ quote +:+ "tipo" +:+ quote +:+ ":"
                               +:+ quote +:+ "factura" +:+ quote +:+ "}").
Proof. by vm_compute. Qed.

Lemma exec_handleLogout net w :
  exec net handleLogout w =
    (Returned tt, perform (update (setPage "dashboard")) (perform (update (setToken None)) w)).
Proof. reflexivity. Qed.

(** C2. When the response has status 401 and the expiry callback is the
    [handleLogout] of [App], the gateway shows the expiry notice, then calls
    the callback, once; the stored credential is absent afterwards and the
    application is back at its initial view; the caller still gets the
    response. *)
Theorem gateway_expiry_forces_logout (net : Network) url options w response :
  Options.onLogout options = Some handleLogout →
  net (trace w) (gateway_request url options) = Fulfilled response →
  Response.status response = 401 →
  let out := exec net (fetchWithAuth url options) w in
  out.1 = Returned response ∧
  events_since w out.2 =
    [ Requested (gateway_request url options);
      Answered (Fulfilled response);
      Did (alert expired_notice);
      Did (call "onLogout");
      Did (update (setToken None));
      Did (update (setPage "dashboard")) ] ∧
  alerts (events_since w out.2) = [expired_notice] ∧
  calls (events_since w out.2) = ["onLogout"] ∧
  App.token (app out.2) = None ∧
  App.page (app out.2) = "dashboard".
Proof.
  intros Hcb Hnet Hst out. subst out.
  rewrite exec_fetchWithAuth, Hnet, Hst, Hcb. cbv zeta.
  rewrite N.eqb_refl, exec_handleLogout. cbn [fst snd].
  match goal with |- context [events_since w ?w'] =>
    assert (Hev : events_since w w' =
      [ Requested (gateway_request url options);
        Answered (Fulfilled response);
        Did (alert expired_notice);
        Did (call "onLogout");
        Did (update (setToken None));
        Did (update (setPage "dashboard")) ])
  end.
  { apply events_since_app.
    rewrite !perform_trace, !record_trace, <- !app_assoc. done. }
  rewrite Hev. done.
Qed.

Lemma gateway_expiry_forces_logout_witness :
  App.token (app (exec (Sample.scripted [Sample.status_only 401])
                    (fetchWithAuth "/auth/me"
                       (Options.mk (Some "t0k3n") (Some handleLogout) None [] NoBody))
                    (Sample.world [])).2) = None.
Proof.
  apply (gateway_expiry_forces_logout (Sample.scripted [Sample.status_only 401])
           "/auth/me" (Options.mk (Some "t0k3n") (Some handleLogout) None [] NoBody)
           (Sample.world []) (Response.mk 401 "HTTP 401" None)); reflexivity.
Defined.

(** C10. When the response has status 401 and no expiry callback was
    supplied, the gateway does nothing besides the request: no notice, no
    callback, the session and the page are untouched, and the caller gets the
    401 response as it came. *)
Theorem gateway_401_without_callback (net : Network) url options w response :
  Options.onLogout options = None →
  net (trace w) (gateway_request url options) = Fulfilled response →
  Response.status response = 401 →
  let out := exec net (fetchWithAuth url options) w in
  out.1 = Returned response ∧
  events_since w out.2 =
    [ Requested (gateway_request url options); Answered (Fulfilled response) ] ∧
  app out.2 = app w ∧
  ui out.2 = ui w.
Proof.
  intros Hcb Hnet Hst out. subst out.
  rewrite exec_fetchWithAuth, Hnet, Hst, Hcb. cbv zeta.
  rewrite N.eqb_refl. cbn [fst snd].
  split_and!; try done.
  apply events_since_app. rewrite !record_trace, <- !app_assoc. done.
Qed.

Lemma gateway_401_without_callback_witness :
  (exec (Sample.scripted [Sample.status_only 401])
     (fetchWithAuth "/auth/me" (Options.mk (Some "t0k3n") None None [] NoBody))
     (Sample.world [])).1 = Returned (Response.mk 401 "HTTP 401" None).
Proof.
  apply (gateway_401_without_callback (Sample.scripted [Sample.status_only 401])
           "/auth/me" (Options.mk (Some "t0k3n") None None [] NoBody)
           (Sample.world []) (Response.mk 401 "HTTP 401" None)); reflexivity.
Defined.

(** ** The batch upload controller *)

Section Controller.

Context (net : Network) (UPLOAD_DELAY_MS : N).
Context (token : option string) (onLogout : option (Proc unit)) (docType : option DocType).

(** [App] hands [handleLogout] to the page; the prop is optional. *)
Hypothesis onLogout_of_App : onLogout = None ∨ onLogout = Some handleLogout.

Local Abbreviation upload_one := (upload_one UPLOAD_DELAY_MS token onLogout docType).
Local Abbreviation upload_from := (upload_from UPLOAD_DELAY_MS token onLogout docType).
Local Abbreviation upload_request := (upload_request token onLogout docType).
Local Abbreviation after_answer := (after_answer UPLOAD_DELAY_MS onLogout).
Local Abbreviation iteration := (iteration UPLOAD_DELAY_MS token onLogout docType).
Local Abbreviation loop_events := (loop_events UPLOAD_DELAY_MS token onLogout docType).
Local Abbreviation confirmUpload := (confirmUpload UPLOAD_DELAY_MS token onLogout docType).

Ltac trace_norm :=
  rewrite ?perform_trace, ?record_trace; simpl; repeat (rewrite <- app_assoc; simpl).

(** One iteration of the loop: it ends normally when the request is
    answered, whatever the status, and adds the events of [iteration]. *)
Lemma exec_upload_one i file w :
  let s := net (trace w ++ [Did (update (setUploadingIndex (Some i)))]) (upload_request file) in
  ∃ w1, exec net (upload_one i file) w
          = (match s with Fulfilled _ => Returned tt | Rejected e => Threw e end, w1)
        ∧ trace w1 = trace w ++ iteration i file s.
Proof.
  intros s. unfold upload_one.
  rewrite exec_bind, exec_act, exec_bind, exec_fetchWithAuth.
  fold (upload_request file). rewrite perform_trace. fold s. cbv zeta.
  unfold iteration, after_answer.
  destruct s as [res|e]; cbn [Options.onLogout].
  - assert (Hrest : ∀ w', ∃ w1,
      exec net
        (if negb (Response.ok res)
         then act (console "error"
                     ["Fallo subiendo " +:+ File.name file +:+ ":"; Response.text res]);;
              act (alert (upload_failure file (Response.text res)))
         else loadHistorico;;
              if 0 <? UPLOAD_DELAY_MS then sleep UPLOAD_DELAY_MS else mret tt) w'
      = (Returned tt, w1)
      ∧ trace w1 = trace w' ++
          (if Response.ok res
           then Did (detach "loadHistorico")
                :: (if 0 <? UPLOAD_DELAY_MS then [Slept UPLOAD_DELAY_MS] else [])
           else [ Did (console "error"
                         ["Fallo subiendo " +:+ File.name file +:+ ":"; Response.text res]);
                  Did (alert (upload_failure file (Response.text res))) ])).
    { intros w'. destruct (Response.ok res); simpl.
      - destruct (0 <? UPLOAD_DELAY_MS); simpl; eexists; (split; [done|]); by trace_norm.
      - eexists; (split; [done|]); by trace_norm. }
    destruct (Response.status res =? 401); simpl;
      [destruct onLogout_of_App as [-> | ->]; simpl|];
      edestruct Hrest as (w1 & Hex & Htr); rewrite Hex; exists w1;
      (split; [done|]); rewrite Htr; by trace_norm.
  - eexists. split; [done|]. by trace_norm.
Qed.

(** The loop: one iteration per file, until a request is rejected. *)
Lemma exec_upload_from rest i w :
  ∃ answers r w',
    settles rest answers r
    ∧ exec net (upload_from i rest) w = (r, w')
    ∧ trace w' = trace w ++ loop_events i rest answers.
Proof.
  revert i w. induction rest as [|file rest IH]; intros i w.
  - exists [], (Returned tt), w. split_and!; [constructor|done|by rewrite app_nil_r].
  - change (upload_from i (file :: rest))
      with (upload_one i file;; upload_from (S i) rest).
    rewrite exec_bind.
    destruct (exec_upload_one i file w) as (w1 & Hex & Htr). rewrite Hex.
    destruct (net _ _) as [res|e] eqn:Es.
    + destruct (IH (S i) w1) as (answers & r & w' & Hs & Hex' & Htr').
      exists (Fulfilled res :: answers), r, w'.
      split_and!; [by constructor|done|].
      rewrite Htr', Htr, <- app_assoc. reflexivity.
    + exists [Rejected e], (Threw e), w1.
      split_and!; [by constructor|done|].
      rewrite Htr.
      change (loop_events i (file :: rest) [Rejected e])
        with (iteration i file (Rejected e) ++ []).
      by rewrite app_nil_r.
Qed.
Lemma confirmUpload_guard (files : list File.t) :
  Js.truthy token = true → is_Some docType → files ≠ [] →
  negb (Js.truthy token) || negb (bool_decide (is_Some docType))
    || bool_decide (length files = 0%nat) = false.
Proof.
  intros -> Hd Hf. rewrite bool_decide_eq_true_2 by done.
  rewrite bool_decide_eq_false_2; [done|]. by destruct files.
Qed.


(** [startUpload] opens the confirmation dialog under the same conditions,
    and tells the operator what is missing otherwise. *)
Lemma startUpload_opens_dialog (files : list File.t) w :
  Js.truthy token = true → is_Some docType → files ≠ [] →
  exec net (startUpload token docType files) w
  = (Returned tt, perform (update (setShowConfirm true)) w).
Proof.
  intros Ht Hd Hf. unfold startUpload. rewrite Ht. simpl.
  rewrite bool_decide_eq_true_2 by done. simpl.
  rewrite bool_decide_eq_false_2; [done|]. by destruct files.
Qed.

(** The whole of [confirmUpload], once past its guard: it never throws, and
    when the loop ends normally it leaves the queue empty and the success
    modal open. *)
Lemma exec_confirmUpload (files : list File.t) w :
  Js.truthy token = true → is_Some docType → files ≠ [] →
  ∃ answers r w',
    settles files answers r
    ∧ exec net (confirmUpload files) w = (Returned tt, w')
    ∧ trace w' = trace w ++
        [ Did (update (setUploading true)); Did (update (setUploadingIndex (Some 0%nat))) ]
        ++ loop_events 0 files answers ++ completion r
    ∧ (r = Returned tt →
       Page.files (ui w') = [] ∧ Page.showSuccess (ui w') = true
       ∧ Page.showConfirm (ui w') = false ∧ Page.uploading (ui w') = false
       ∧ Page.uploadingIndex (ui w') = None).
Proof.
  intros Ht Hd Hf. unfold confirmUpload.
  rewrite confirmUpload_guard by done.
  rewrite exec_bind, exec_act, exec_bind, exec_act, exec_try_finally, exec_try_catch, exec_bind.
  destruct (exec_upload_from files 0
              (perform (update (setUploadingIndex (Some 0%nat)))
                 (perform (update (setUploading true)) w)))
    as (answers & r & w1 & Hs & Hex & Htr).
  rewrite Hex. exists answers, r.
  destruct r as [[]|e].
  - eexists. split_and!; [done|reflexivity| |done].
    simpl. rewrite Htr. by trace_norm.
  - eexists. split_and!; [done|reflexivity| |done].
    simpl. rewrite Htr. by trace_norm.
Qed.

(** *** Reading the trace of the loop *)


Lemma requests_after_answer file s : requests (after_answer file s) = [].
Proof.
  destruct s as [res|e]; [|done]. unfold after_answer.
  unfold requests. rewrite omap_app.
  destruct (_ && _), (Response.ok res), (0 <? UPLOAD_DELAY_MS); done.
Qed.

Lemma sleeps_after_answer file s :
  sleeps (after_answer file s) =
    if answered_ok s && (0 <? UPLOAD_DELAY_MS) then [UPLOAD_DELAY_MS] else [].
Proof.
  destruct s as [res|e]; [|done]. unfold after_answer, sleeps.
  rewrite omap_app. simpl.
  destruct (_ && _), (Response.ok res), (0 <? UPLOAD_DELAY_MS); done.
Qed.



Lemma before_next_request_free pre tr :
  requests pre = [] → before_next_request (pre ++ tr) = pre ++ before_next_request tr.
Proof.
  induction pre as [|e pre IH]; [done|].
  destruct e; simpl; try done; intros H; by rewrite IH.
Qed.

Lemma exchanges_free pre tr : requests pre = [] → exchanges (pre ++ tr) = exchanges tr.
Proof.
  induction pre as [|e pre IH]; [done|].
  destruct e; simpl; try done; intros H; by rewrite IH.
Qed.

Lemma exchanges_iteration i file s tr :
  exchanges (iteration i file s ++ tr) =
    mkExchange (upload_request file) s (after_answer file s ++ before_next_request tr)
    :: exchanges tr.
Proof.
  unfold iteration. rewrite <- app_assoc.
  change (mkExchange (upload_request file) s (before_next_request (after_answer file s ++ tr))
          :: exchanges (after_answer file s ++ tr)
          = mkExchange (upload_request file) s (after_answer file s ++ before_next_request tr)
            :: exchanges tr).
  rewrite before_next_request_free, exchanges_free by apply requests_after_answer.
  done.
Qed.

Lemma loop_events_cons i file rest s answers :
  loop_events i (file :: rest) (s :: answers) =
    iteration i file s ++
    match s with Fulfilled _ => loop_events (S i) rest answers | Rejected _ => [] end.
Proof. reflexivity. Qed.



Lemma before_next_request_id post :
  requests post = [] → before_next_request post = post.
Proof.
  intros H. rewrite <- (app_nil_r post) at 1.
  rewrite before_next_request_free by done. apply app_nil_r.
Qed.

Lemma exchanges_none post : requests post = [] → exchanges post = [].
Proof.
  intros H. rewrite <- (app_nil_r post). by rewrite exchanges_free.
Qed.





Lemma loop_before_next_request rest answers r i post :
  settles rest answers r →
  requests post = [] → sleeps post = [] →
  sleeps (before_next_request (loop_events i rest answers ++ post)) = [].
Proof.
  intros Hs Hfree Hpost.
  destruct Hs as [|file rest res answers r Hs|file rest e].
  - change (sleeps (before_next_request post) = []).
    by rewrite before_next_request_id.
  - done.
  - done.
Qed.

(** Every exchange of the loop is the upload of a file of the queue,
    followed by the events of [after_answer] and by nothing that sleeps. *)
Lemma loop_exchanges rest answers r i post :
  settles rest answers r →
  requests post = [] → sleeps post = [] →
  Forall (λ x, ∃ file extra,
            file ∈ rest
            ∧ request x = upload_request file
            ∧ followed_by x = after_answer file (answer x) ++ extra
            ∧ sleeps extra = [])
    (exchanges (loop_events i rest answers ++ post)).
Proof.
  intros Hs Hfree Hpost. revert i.
  induction Hs as [|file rest res answers r Hs IH|file rest e]; intros i.
  - change ([] ++ post) with post. rewrite exchanges_none by done. constructor.
  - rewrite loop_events_cons, <- app_assoc, exchanges_iteration.
    constructor.
    + exists file, (before_next_request (loop_events (S i) rest answers ++ post)).
      split_and!; [by left|done|done|].
      by eapply loop_before_next_request.
    + eapply Forall_impl; [apply IH|].
      intros x (f & extra & Hf & Hx). exists f, extra. split; [by right|done].
  - rewrite loop_events_cons, <- app_assoc, exchanges_iteration.
    change ([] ++ post) with post.
    rewrite before_next_request_id by done.
    rewrite exchanges_none by done.
    constructor; [|constructor].
    exists file, post. split_and!; [by left|done|done|done].
Qed.

(** *** The run of [confirmUpload] *)

Lemma completion_quiet r :
  requests (completion r) = [] ∧ sleeps (completion r) = []
  ∧ sent_files (completion r) = [] ∧ in_flight_after false (completion r) = Some false.
Proof. by destruct r. Qed.

(** What a batch adds to the trace. *)
Lemma confirmUpload_events (files : list File.t) w :
  Js.truthy token = true → is_Some docType → files ≠ [] →
  ∃ answers r,
    settles files answers r
    ∧ events_since w (exec net (confirmUpload files) w).2 =
        [ Did (update (setUploading true)); Did (update (setUploadingIndex (Some 0%nat))) ]
        ++ loop_events 0 files answers ++ completion r.
Proof.
  intros Ht Hd Hf.
  destruct (exec_confirmUpload files w Ht Hd Hf) as (answers & r & w' & Hs & Hex & Htr & _).
  exists answers, r. split; [done|]. rewrite Hex. by apply events_since_app.
Qed.




(** C4, as the code has it.  With a positive delay, the controller sleeps
    for the delay after each file whose upload got a success response, before
    anything else is requested; after a file whose upload failed it does not
    sleep. *)
Theorem pacing_after_successful_uploads (files : list File.t) w :
  0 < UPLOAD_DELAY_MS →
  Js.truthy token = true → is_Some docType → files ≠ [] →
  let delta := events_since w (exec net (confirmUpload files) w).2 in
  ∀ x, x ∈ exchanges delta →
       sleeps (followed_by x) = if answered_ok (answer x) then [UPLOAD_DELAY_MS] else [].
Proof.
  intros Hpos Ht Hd Hf delta x Hx. subst delta.
  destruct (confirmUpload_events files w Ht Hd Hf) as (answers & r & Hs & Hev).
  rewrite Hev in Hx.
  change (x ∈ exchanges (loop_events 0 files answers ++ completion r)) in Hx.
  destruct (completion_quiet r) as (Hfree & Hquiet & _).
  pose proof (loop_exchanges files answers r 0 (completion r) Hs Hfree Hquiet) as Hall.
  rewrite Forall_forall in Hall.
  destruct (Hall x Hx) as (file & extra & _ & _ & -> & Hextra).
  unfold sleeps in *. rewrite omap_app. fold (sleeps (after_answer file (answer x))).
  rewrite Hextra, app_nil_r, sleeps_after_answer.
  apply N.ltb_lt in Hpos. rewrite Hpos. by destruct (answered_ok (answer x)).
Qed.


End Controller.

(** *** The scenarios of the specification *)


(** Scenario A: two sequential POSTs to the intake endpoint with
    [tipo=factura], in the order of the queue. *)
Example scenario_A_requests :
  (λ r, (Request.url r, Request.method r, Request.body r))
    <$> requests (Sample.batch_events 0 200 200)
  = [ ("/api/upload/", Some "POST",
       FormData [("file", FormFile Sample.a_pdf); ("tipo", FormText "factura")]);
      ("/api/upload/", Some "POST",
       FormData [("file", FormFile Sample.b_xlsx); ("tipo", FormText "factura")]) ].
Proof. by vm_compute. Qed.



(** C4, as stated, fails on Scenario B with a delay of one second: the
    first upload fails with status 500 and the second request follows without
    any sleep in between. *)
Lemma no_pause_after_failed_upload :
  ¬ ∀ x, x ∈ exchanges (Sample.batch_events 1000 500 200) →
         sleeps (followed_by x) = [1000].
Proof.
  intros H.
  assert (∃ x, exchanges (Sample.batch_events 1000 500 200) !! 0%nat = Some x
               ∧ uploaded_file (request x) = Some Sample.a_pdf
               ∧ answer x = Sample.status_only 500
               ∧ sleeps (followed_by x) = []) as (x & Hx & _ & _ & Hs).
  { eexists. by vm_compute. }
  apply list_elem_of_lookup_2, H in Hx. rewrite Hs in Hx. discriminate.
Qed.

Lemma pacing_after_successful_uploads_witness :
  Forall (λ x, sleeps (followed_by x) = if answered_ok (answer x) then [1000] else [])
    (exchanges (Sample.batch_events 1000 500 200)).
Proof.
  apply Forall_forall.
  refine (pacing_after_successful_uploads (Sample.answers 500 200) 1000
            Sample.token Sample.onLogout Sample.docType (or_intror eq_refl)
            Sample.queue (Sample.world Sample.queue) _ _ _ _).
  - reflexivity.
  - reflexivity.
  - eexists. reflexivity.
  - discriminate.
Defined.


(** Scenario B: the first request returns HTTP 500; the alert names "a.pdf",
    the second request is still issued and the batch ends with the queue
    cleared. *)
Example scenario_B :
  alerts (Sample.batch_events 0 500 200) = ["Fallo subiendo a.pdf: HTTP 500"]
  ∧ sent_files (Sample.batch_events 0 500 200) = [Sample.a_pdf; Sample.b_xlsx]
  ∧ Page.files (ui (Sample.batch 0 500 200).2) = [].
Proof. by vm_compute. Qed.

(** ** Manual retry *)

(** The retry button is offered for failed records only. *)
Lemma retry_offered_only_for_failed p op :
  retry_cell p op ≠ Dash ↔ Operacion.status op = Some FAILED.
Proof.
  unfold retry_cell. case_bool_decide; split; try done.
Qed.

(** Scenario D: a click that starts a retry disables the button of that
    record, and clicking it again changes nothing. *)
Lemma retry_disables_its_button c op :
  Js.truthy (App.token (app (Retry.world c))) = true →
  Retry.can_start c op = true →
  Retry.in_flight (Retry.click op c) = Retry.in_flight c ++ [Operacion.id op]
  ∧ Retry.can_start (Retry.click op c) op = false
  ∧ Retry.click op (Retry.click op c) = Retry.click op c.
Proof.
  intros Ht Hcan.
  assert (Hclick : ∃ k w', Retry.click op c
                           = Retry.mkConfig w' (Retry.pending c ++ [(Operacion.id op, k)])
                           ∧ Page.retryingId (ui w') = Some (Operacion.id op)).
  { unfold Retry.click. rewrite Hcan. unfold retryWebhook. rewrite Ht. simpl.
    do 2 eexists. split; reflexivity. }
  destruct Hclick as (k & w' & Hc & Hid).
  assert (Hoff : Retry.can_start (Retry.click op c) op = false).
  { rewrite Hc. unfold Retry.can_start, retry_cell. simpl. rewrite Hid.
    rewrite (bool_decide_eq_true_2 (Some _ = Some _)) by done.
    destruct (bool_decide (Operacion.status op = Some FAILED)); apply andb_false_r. }
  split_and!; [|done|].
  - rewrite Hc. unfold Retry.in_flight. simpl. by rewrite fmap_app.
  - unfold Retry.click at 1. by rewrite Hoff.
Qed.

(** C6 fails on the code.  With the failed records 42 and 43 in the table,
    the operator retries 42 and then 43 while the request of 42 is still
    unanswered: [retryingId] now holds only "43", so the button of 42 is
    enabled again although its retry is in flight, and a further click
    starts a second, concurrent retry of 42. *)
Theorem retry_guard_forgets_earlier_retry :
  let c := Retry.run [Retry.Click Sample.op42; Retry.Click Sample.op43] Sample.history in
  Retry.in_flight c = ["42"; "43"]
  ∧ Page.retryingId (ui (Retry.world c)) = Some "43"
  ∧ retry_cell (ui (Retry.world c)) Sample.op42 = RetryButton false "Reintentar"
  ∧ Retry.in_flight (Retry.step c (Retry.Click Sample.op42)) = ["42"; "43"; "42"].
Proof. by vm_compute. Qed.

(** The same happens when any retry ends: its [finally] resets
    [retryingId], which enables the buttons of the retries still in flight. *)
Example retry_guard_reset_by_other_retry :
  let c := Retry.run [ Retry.Click Sample.op42; Retry.Click Sample.op43;
                       Retry.Settle 1 (Sample.status_only 200) ] Sample.history in
  Retry.in_flight c = ["42"]
  ∧ Page.retryingId (ui (Retry.world c)) = None
  ∧ Retry.can_start c Sample.op42 = true.
Proof. by vm_compute. Qed.

(* ===================================================================== *)
(** * Further properties of the code *)
(* ===================================================================== *)

(** ** The gateway on failures that are not a session expiry *)

(** X1. The gateway does not catch a network failure: the rejection of
    [fetch] is thrown to the caller as it is, with no notice to the operator,
    no call of the expiry callback and no change of state. *)
Theorem gateway_rejection_is_rethrown (net : Network) url options w message :
  net (trace w) (gateway_request url options) = Rejected message →
  let out := exec net (fetchWithAuth url options) w in
  out.1 = Threw message
  ∧ events_since w out.2
    = [ Requested (gateway_request url options); Answered (Rejected message) ]
  ∧ app out.2 = app w
  ∧ ui out.2 = ui w.
Proof.
  intros Hnet out. subst out. rewrite exec_fetchWithAuth, Hnet. cbv zeta.
  cbn [fst snd]. split_and!; try done.
  apply events_since_app. by rewrite !record_trace, <- !app_assoc.
Qed.

Lemma gateway_rejection_is_rethrown_witness :
  (exec (Sample.scripted [])
     (fetchWithAuth "/auth/me" (Options.mk (Some "t0k3n") (Some handleLogout) None [] NoBody))
     (Sample.world [])).1 = Threw "Failed to fetch".
Proof.
  apply (gateway_rejection_is_rethrown (Sample.scripted []) "/auth/me"
           (Options.mk (Some "t0k3n") (Some handleLogout) None [] NoBody)
           (Sample.world []) "Failed to fetch"); reflexivity.
Defined.

(** X2. Only the status 401 counts as an expired session: a response with
    any other status, success or not, is handed to the caller without a
    notice, without calling the expiry callback (even when one is supplied)
    and without touching the session or the page. *)
Theorem gateway_other_statuses_pass_through (net : Network) url options w response :
  net (trace w) (gateway_request url options) = Fulfilled response →
  Response.status response ≠ 401 →
  let out := exec net (fetchWithAuth url options) w in
  out.1 = Returned response
  ∧ events_since w out.2
    = [ Requested (gateway_request url options); Answered (Fulfilled response) ]
  ∧ app out.2 = app w
  ∧ ui out.2 = ui w.
Proof.
  intros Hnet Hst out. subst out. rewrite exec_fetchWithAuth, Hnet. cbv zeta.
  apply N.eqb_neq in Hst. rewrite Hst. cbn [fst snd].
  split_and!; try done.
  apply events_since_app. by rewrite !record_trace, <- !app_assoc.
Qed.

Lemma gateway_other_statuses_pass_through_witness :
  app (exec (Sample.scripted [Sample.status_only 403])
         (fetchWithAuth "/auth/me"
            (Options.mk (Some "t0k3n") (Some handleLogout) None [] NoBody))
         (Sample.world [])).2 = Sample.session.
Proof.
  refine (proj1 (proj2 (proj2 (gateway_other_statuses_pass_through
           (Sample.scripted [Sample.status_only 403]) "/auth/me"
           (Options.mk (Some "t0k3n") (Some handleLogout) None [] NoBody)
           (Sample.world []) (Response.mk 403 "HTTP 403" None) _ _)))).
  - reflexivity.
  - discriminate.
Defined.

(** ** More on the upload queue *)

Section QueueAlgebra.

Implicit Types (f c : File.t) (q files candidates : list File.t).

Lemma push_new_app q a b : push_new q (a ++ b) = push_new (push_new q a) b.
Proof. revert q. induction a as [|f a IH]; intros q; simpl; [done|apply IH]. Qed.

Lemma removeFile_absent name size q :
  (name, size) ∉ File.key <$> q → removeFile name size q = q.
Proof.
  unfold removeFile. induction q as [|f q IH]; [done|].
  rewrite fmap_cons, not_elem_of_cons. intros [Hne Hq].
  rewrite filter_cons_True; [by rewrite IH|].
  apply negb_true_iff, andb_false_iff.
  destruct (String.eqb (File.name f) name) eqn:En; [|by left]. right.
  apply String.eqb_eq in En. apply N.eqb_neq. intros Es. apply Hne.
  unfold File.key. by rewrite En, Es.
Qed.

Lemma removeFile_elem name size q f :
  f ∈ removeFile name size q ↔ f ∈ q ∧ File.key f ≠ (name, size).
Proof.
  unfold removeFile. rewrite list_elem_of_filter, negb_true_iff, andb_false_iff.
  rewrite <- not_true_iff_false, String.eqb_eq, N.eqb_neq. unfold File.key.
  split.
  - intros [[Hn|Hs] Hin]; (split; [done|]); intros [= ? ?]; done.
  - intros [Hin Hne]. split; [|done].
    destruct (decide (File.name f = name)) as [Hn|]; [|by left].
    right. intros Hs. apply Hne. by rewrite Hn, Hs.
Qed.

Lemma removeFile_key_gone name size q :
  (name, size) ∉ File.key <$> removeFile name size q.
Proof.
  intros (f & Hk & Hf)%list_elem_of_fmap. apply removeFile_elem in Hf as [_ Hne].
  by apply Hne.
Qed.

Lemma removeFile_length name size q :
  no_duplicates q → (name, size) ∈ File.key <$> q →
  S (length (removeFile name size q)) = length q.
Proof.
  unfold no_duplicates. induction q as [|f q IH]; [by intros _ ?%elem_of_nil|].
  rewrite fmap_cons. intros [Hf Hq]%NoDup_cons [Hk|Hk]%elem_of_cons.
  - unfold File.key in Hk. injection Hk as -> ->.
    unfold removeFile. rewrite filter_cons_False.
    + fold (removeFile (File.name f) (File.size f) q). by rewrite removeFile_absent.
    + simpl. by rewrite String.eqb_refl, N.eqb_refl.
  - unfold removeFile. rewrite filter_cons_True.
    + fold (removeFile name size q). simpl. by rewrite IH.
    + apply negb_true_iff, not_true_iff_false. rewrite andb_true_iff, String.eqb_eq, N.eqb_eq.
      intros [Hn Hs]. apply Hf. unfold File.key at 1. by rewrite Hn, Hs.
Qed.

End QueueAlgebra.

(** X3. Adding a valid file that is not yet queued puts it at the end of the
    queue, and removing it again gives the queue back as it was. *)
Theorem removeFile_undoes_addFiles (files : list File.t) (f : File.t) :
  isAllowed f = true →
  File.key f ∉ File.key <$> files →
  addFiles files [f] = ([], files ++ [f])
  ∧ removeFile (File.name f) (File.size f) (addFiles files [f]).2 = files.
Proof.
  intros Ha Hk.
  assert (Hadd : addFiles files [f] = ([], files ++ [f])).
  { unfold addFiles. rewrite filter_cons_True, filter_nil by done. simpl.
    by apply some_same_false in Hk as ->. }
  split; [done|]. rewrite Hadd. simpl. unfold removeFile.
  rewrite filter_app. fold (removeFile (File.name f) (File.size f) files).
  rewrite removeFile_absent by done.
  rewrite filter_cons_False, filter_nil, app_nil_r; [done|].
  simpl. by rewrite String.eqb_refl, N.eqb_refl.
Qed.

Lemma removeFile_undoes_addFiles_witness :
  removeFile "ok.pdf" 10 (addFiles Sample.queue [Sample.ok_pdf]).2 = Sample.queue.
Proof.
  refine (proj2 (removeFile_undoes_addFiles Sample.queue Sample.ok_pdf _ _)).
  - reflexivity.
  - apply (bool_decide_unpack _). by vm_compute.
Defined.

(** X4. Adding candidates in two steps gives the same queue as adding them
    all at once, and adding the same candidates a second time changes
    nothing. *)
Theorem addFiles_composes (files a b : list File.t) :
  (addFiles (addFiles files a).2 b).2 = (addFiles files (a ++ b)).2
  ∧ (addFiles (addFiles files a).2 a).2 = (addFiles files a).2.
Proof.
  split.
  - simpl. by rewrite filter_app, push_new_app.
  - simpl. apply push_new_present. intros f Hf. by apply push_new_covers.
Qed.

(** X5. On a queue without duplicates, [removeFile] takes out exactly the one
    entry with the given name and size: the queue gets shorter by one, keeps
    every other entry in its place, no longer has the pair, and a second
    removal changes nothing.  When the pair is not queued, nothing changes. *)
Theorem removeFile_removes_one_entry (files : list File.t) name size :
  no_duplicates files →
  (name, size) ∈ File.key <$> files →
  S (length (removeFile name size files)) = length files
  ∧ removeFile name size files `sublist_of` files
  ∧ (∀ f, f ∈ removeFile name size files ↔ f ∈ files ∧ File.key f ≠ (name, size))
  ∧ removeFile name size (removeFile name size files) = removeFile name size files
  ∧ (∀ other, other ∉ File.key <$> files → removeFile other.1 other.2 files = files).
Proof.
  intros Hq Hk. split_and!.
  - by apply removeFile_length.
  - apply sublist_filter.
  - intros f. apply removeFile_elem.
  - apply removeFile_absent, removeFile_key_gone.
  - intros [n s] Hother. by apply removeFile_absent.
Qed.

Lemma removeFile_removes_one_entry_witness :
  S (length (removeFile "a.pdf" 100 Sample.queue)) = length Sample.queue.
Proof.
  refine (proj1 (removeFile_removes_one_entry Sample.queue "a.pdf" 100 _ _)).
  - unfold no_duplicates. apply (bool_decide_unpack _). by vm_compute.
  - apply (bool_decide_unpack _). by vm_compute.
Defined.

(** ** More on the batch upload controller *)

Section Batch.

Context (net : Network) (UPLOAD_DELAY_MS : N).
Context (token : option string) (onLogout : option (Proc unit)) (docType : option DocType).
Hypothesis onLogout_of_App : onLogout = None ∨ onLogout = Some handleLogout.

Local Abbreviation upload_one := (upload_one UPLOAD_DELAY_MS token onLogout docType).
Local Abbreviation upload_from := (upload_from UPLOAD_DELAY_MS token onLogout docType).
Local Abbreviation upload_request := (upload_request token onLogout docType).
Local Abbreviation after_answer := (after_answer UPLOAD_DELAY_MS onLogout).
Local Abbreviation iteration := (iteration UPLOAD_DELAY_MS token onLogout docType).
Local Abbreviation loop_events := (loop_events UPLOAD_DELAY_MS token onLogout docType).
Local Abbreviation confirmUpload := (confirmUpload UPLOAD_DELAY_MS token onLogout docType).

Lemma same_page_refl w : same_page w w.
Proof. by repeat split. Qed.

Lemma same_page_trans w1 w2 w3 : same_page w1 w2 → same_page w2 w3 → same_page w1 w3.
Proof.
  unfold same_page. intros (?&?&?&?&?&?&?) (?&?&?&?&?&?&?).
  split_and!; congruence.
Qed.

(** An iteration of the loop changes nothing of the page but the index. *)
Lemma upload_one_same_page i file w :
  same_page w (exec net (upload_one i file) w).2.
Proof.
  unfold upload_one. rewrite exec_bind, exec_act, exec_bind, exec_fetchWithAuth.
  cbv zeta. cbn [Options.onLogout].
  unfold same_page.
  destruct (net _ _) as [res|e]; [|simpl; by repeat split].
  destruct (Response.status res =? 401), onLogout_of_App as [-> | ->]; simpl;
    destruct (Response.ok res), (0 <? UPLOAD_DELAY_MS); simpl; by repeat split.
Qed.

Lemma upload_from_same_page rest i w :
  same_page w (exec net (upload_from i rest) w).2.
Proof.
  revert i w. induction rest as [|file rest IH]; intros i w; [apply same_page_refl|].
  change (upload_from i (file :: rest))
    with (upload_one i file;; upload_from (S i) rest).
  rewrite exec_bind.
  pose proof (upload_one_same_page i file w) as H1.
  destruct (exec net (upload_one i file) w) as [[[]|e] w1]; [|done].
  eapply same_page_trans; [exact H1|apply IH].
Qed.

(** [confirmUpload] past its guard, with the world it leaves. *)
Lemma confirmUpload_run (files : list File.t) w :
  Js.truthy token = true → is_Some docType → files ≠ [] →
  ∃ answers r w1,
    settles files answers r
    ∧ exec net (confirmUpload files) w = (Returned tt, after_loop r w1)
    ∧ trace w1 = trace w ++
        [ Did (update (setUploading true)); Did (update (setUploadingIndex (Some 0%nat))) ]
        ++ loop_events 0 files answers
    ∧ Page.files (ui w1) = Page.files (ui w)
    ∧ Page.showConfirm (ui w1) = Page.showConfirm (ui w)
    ∧ Page.showSuccess (ui w1) = Page.showSuccess (ui w).
Proof.
  intros Ht Hd Hf. unfold confirmUpload.
  rewrite (confirmUpload_guard token docType files) by done.
  rewrite exec_bind, exec_act, exec_bind, exec_act, exec_try_finally, exec_try_catch, exec_bind.
  set (w0 := perform (update (setUploadingIndex (Some 0%nat)))
               (perform (update (setUploading true)) w)).
  destruct (exec_upload_from net UPLOAD_DELAY_MS token onLogout docType onLogout_of_App
              files 0 w0) as (answers & r & w1 & Hs & Hex & Htr).
  pose proof (upload_from_same_page files 0 w0) as Hsame.
  rewrite Hex in Hsame |- *. destruct Hsame as (_ & Hfiles & Hconf & _ & _ & Hsucc & _).
  exists answers, r, w1. split; [done|]. split; [by destruct r as [[]|e]|].
  split_and!; try done.
  rewrite Htr. unfold w0. rewrite !perform_trace, <- !app_assoc. done.
Qed.

Lemma after_loop_trace r w1 : trace (after_loop r w1) = trace w1 ++ completion r.
Proof.
  unfold after_loop. destruct r as [[]|e]; rewrite !perform_trace, <- !app_assoc; done.
Qed.

(** The events of a batch, with the world it leaves. *)
Lemma confirmUpload_outcome (files : list File.t) w :
  Js.truthy token = true → is_Some docType → files ≠ [] →
  ∃ answers r w1,
    settles files answers r
    ∧ exec net (confirmUpload files) w = (Returned tt, after_loop r w1)
    ∧ events_since w (after_loop r w1) =
        [ Did (update (setUploading true)); Did (update (setUploadingIndex (Some 0%nat))) ]
        ++ loop_events 0 files answers ++ completion r
    ∧ Page.files (ui w1) = Page.files (ui w)
    ∧ Page.showConfirm (ui w1) = Page.showConfirm (ui w)
    ∧ Page.showSuccess (ui w1) = Page.showSuccess (ui w).
Proof.
  intros Ht Hd Hf.
  destruct (confirmUpload_run files w Ht Hd Hf) as (answers & r & w1 & Hs & Hex & Htr & Hst).
  exists answers, r, w1. split_and!; try done; try apply Hst.
  apply events_since_app. rewrite after_loop_trace, Htr, <- !app_assoc. done.
Qed.

Lemma rejections_iteration i file s tr :
  rejections (iteration i file s ++ tr) =
    match s with Fulfilled _ => [] | Rejected e => [e] end ++ rejections tr.
Proof.
  unfold iteration, rejections. rewrite <- app_assoc, !omap_app.
  destruct s as [res|e]; [|done]. unfold after_answer. rewrite omap_app.
  destruct (_ && _), (Response.ok res), (0 <? UPLOAD_DELAY_MS); done.
Qed.

Lemma loop_rejections rest answers r i :
  settles rest answers r →
  rejections (loop_events i rest answers)
  = match r with Returned _ => [] | Threw e => [e] end.
Proof.
  intros Hs. revert i.
  induction Hs as [|file rest res answers r Hs IH|file rest e]; intros i.
  - done.
  - rewrite loop_events_cons, rejections_iteration. apply IH.
  - by rewrite loop_events_cons, rejections_iteration.
Qed.

Lemma loop_ends_at_rejection rest answers e i :
  settles rest answers (Threw e) →
  ∃ before, loop_events i rest answers = before ++ [Answered (Rejected e)].
Proof.
  intros Hs. remember (Threw e) as r eqn:Hr. revert i.
  induction Hs as [|file rest res answers r Hs IH|file rest e']; intros i.
  - done.
  - destruct (IH Hr (S i)) as [before Hb]. rewrite loop_events_cons, Hb.
    eexists. by rewrite app_assoc.
  - injection Hr as ->. rewrite loop_events_cons.
    exists [ Did (update (setUploadingIndex (Some i))); Requested (upload_request file) ].
    done.
Qed.



(** What follows an answer up to the next request of the loop: the events
    of [after_answer], then either the start of the next iteration or what
    comes after the loop. *)
Lemma loop_exchanges_followed rest answers r i post :
  settles rest answers r →
  requests post = [] →
  Forall (λ x, ∃ file extra,
            file ∈ rest
            ∧ request x = upload_request file
            ∧ followed_by x = after_answer file (answer x) ++ extra
            ∧ (extra = post ∨ ∃ j, extra = [Did (update (setUploadingIndex (Some j)))]))
    (exchanges (loop_events i rest answers ++ post)).
Proof.
  intros Hs Hfree. revert i.
  induction Hs as [|file rest res answers r Hs IH|file rest e]; intros i.
  - change ([] ++ post) with post. rewrite exchanges_none by done. constructor.
  - rewrite loop_events_cons, <- app_assoc, exchanges_iteration.
    constructor.
    + exists file, (before_next_request (loop_events (S i) rest answers ++ post)).
      split_and!; [by left|done|done|].
      destruct Hs as [|file' rest' res' answers' r' Hs'|file' rest' e'].
      * left. change ([] ++ post) with post. by apply before_next_request_id.
      * right. by exists (S i).
      * right. by exists (S i).
    + eapply Forall_impl; [apply IH|].
      intros x (f & extra & Hf & Hx). exists f, extra. split; [by right|done].
  - rewrite loop_events_cons, <- app_assoc, exchanges_iteration.
    change ([] ++ post) with post.
    rewrite before_next_request_id by done.
    rewrite exchanges_none by done.
    constructor; [|constructor].
    exists file, post. split_and!; [by left|done|done|by left].
Qed.

Lemma refreshes_after_answer file s :
  refreshes (after_answer file s) = if answered_ok s then ["loadHistorico"] else [].
Proof.
  destruct s as [res|e]; [|done]. unfold after_answer, refreshes.
  rewrite omap_app. simpl.
  destruct (_ && _), (Response.ok res), (0 <? UPLOAD_DELAY_MS); done.
Qed.

(** X6. A network failure is not isolated to its file: when a request of
    the batch is rejected, nothing is requested after it, the operator is
    told "Error subiendo archivos: <message>", the queue stays as it was, the
    confirmation dialog and the success modal stay as they were, and the
    upload indicator is switched off. *)
Theorem rejected_upload_aborts_batch (files : list File.t) w message :
  Js.truthy token = true → is_Some docType → files ≠ [] →
  let out := exec net (confirmUpload files) w in
  let delta := events_since w out.2 in
  message ∈ rejections delta →
  rejections delta = [message]
  ∧ (∃ before, delta = before ++ Answered (Rejected message) :: completion (Threw message))
  ∧ alerts (completion (Threw message)) = ["Error subiendo archivos: " +:+ message]
  ∧ requests (completion (Threw message)) = []
  ∧ Page.files (ui out.2) = Page.files (ui w)
  ∧ Page.showConfirm (ui out.2) = Page.showConfirm (ui w)
  ∧ Page.showSuccess (ui out.2) = Page.showSuccess (ui w)
  ∧ Page.uploading (ui out.2) = false
  ∧ Page.uploadingIndex (ui out.2) = None.
Proof.
  intros Ht Hd Hf out delta. subst delta out.
  destruct (confirmUpload_outcome files w Ht Hd Hf)
    as (answers & r & w1 & Hs & Hex & Hev & Hfiles & Hconf & Hsucc).
  rewrite Hex. cbn [fst snd]. rewrite Hev.
  assert (Hrej : rejections
            ([ Did (update (setUploading true)); Did (update (setUploadingIndex (Some 0%nat))) ]
             ++ loop_events 0 files answers ++ completion r)
          = match r with Returned _ => [] | Threw e => [e] end).
  { change (rejections (loop_events 0 files answers ++ completion r)
            = match r with Returned _ => [] | Threw e => [e] end).
    unfold rejections. rewrite omap_app. fold (rejections (loop_events 0 files answers)).
    erewrite loop_rejections by done. destruct r as [[]|e]; done. }
  rewrite Hrej. intros Hin. destruct r as [[]|e]; [by apply elem_of_nil in Hin|].
  apply list_elem_of_singleton in Hin as ->.
  split_and!; try done.
  destruct (loop_ends_at_rejection files answers e 0 Hs) as [before ->].
  eexists (_ :: _ :: before). by rewrite <- !app_assoc.
Qed.




(** X10. The history is refreshed once after each file whose upload got a
    success response, before anything else is requested, and not at all
    after a file whose upload failed. *)
Theorem history_refreshed_after_each_success (files : list File.t) w :
  Js.truthy token = true → is_Some docType → files ≠ [] →
  let delta := events_since w (exec net (confirmUpload files) w).2 in
  ∀ x, x ∈ exchanges delta →
       refreshes (followed_by x)
       = if answered_ok (answer x) then ["loadHistorico"] else [].
Proof.
  intros Ht Hd Hf delta x Hx. subst delta.
  destruct (confirmUpload_outcome files w Ht Hd Hf)
    as (answers & r & w1 & Hs & Hex & Hev & _).
  rewrite Hex in Hx. cbn [fst snd] in Hx. rewrite Hev in Hx.
  change (x ∈ exchanges (loop_events 0 files answers ++ completion r)) in Hx.
  destruct (completion_quiet r) as (Hfree & _).
  pose proof (loop_exchanges_followed files answers r 0 (completion r) Hs Hfree) as Hall.
  rewrite Forall_forall in Hall.
  destruct (Hall x Hx) as (file & extra & _ & _ & -> & Hextra).
  unfold refreshes. rewrite omap_app. fold (refreshes (after_answer file (answer x))).
  rewrite refreshes_after_answer.
  assert (omap (λ e, match e with Did (detach chain) => Some chain | _ => None end) extra = [])
    as ->.
  { destruct Hextra as [->|[j ->]]; [|done]. by destruct r as [[]|e]. }
  by rewrite app_nil_r.
Qed.

End Batch.

Lemma rejected_upload_aborts_batch_witness :
  rejections (events_since (Sample.world Sample.queue)
                (scripted_batch 0 [Sample.status_only 200]).2)
  = ["Failed to fetch"].
Proof.
  refine (proj1 (rejected_upload_aborts_batch (Sample.scripted [Sample.status_only 200]) 0
                   Sample.token Sample.onLogout Sample.docType (or_intror eq_refl)
                   Sample.queue (Sample.world Sample.queue) "Failed to fetch" _ _ _ _)).
  - reflexivity.
  - eexists. reflexivity.
  - discriminate.
  - apply (bool_decide_unpack _). by vm_compute.
Defined.

(** The second file of the sample queue is rejected: the first was uploaded,
    the queue is kept and the dialog stays open. *)
Example aborted_batch :
  let out := scripted_batch 0 [Sample.status_only 200] in
  sent_files (events_since (Sample.world Sample.queue) out.2) = Sample.queue
  ∧ alerts (events_since (Sample.world Sample.queue) out.2)
    = ["Error subiendo archivos: Failed to fetch"]
  ∧ Page.files (ui out.2) = Sample.queue
  ∧ Page.showConfirm (ui out.2) = true
  ∧ success_modal (ui out.2) = None.
Proof. by vm_compute. Qed.



(** The first upload is answered 401: the session is logged out, and the
    second file is still sent with the credential of the batch. *)
Example batch_goes_on_after_logout :
  let out := scripted_batch 0 [Sample.status_only 401; Sample.status_only 200] in
  App.token (app out.2) = None
  ∧ (λ r, Headers.get "Authorization" (Request.headers r))
      <$> requests (events_since (Sample.world Sample.queue) out.2)
    = [Some "Bearer t0k3n"; Some "Bearer t0k3n"]
  ∧ alerts (events_since (Sample.world Sample.queue) out.2)
    = [expired_notice; "Fallo subiendo a.pdf: HTTP 401"].
Proof. by vm_compute. Qed.


Lemma history_refreshed_after_each_success_witness :
  Forall (λ x, refreshes (followed_by x)
               = if answered_ok (answer x) then ["loadHistorico"] else [])
    (exchanges (events_since (Sample.world Sample.queue)
                  (scripted_batch 0 [Sample.status_only 500; Sample.status_only 200]).2)).
Proof.
  apply Forall_forall.
  refine (history_refreshed_after_each_success
            (Sample.scripted [Sample.status_only 500; Sample.status_only 200]) 0
            Sample.token Sample.onLogout Sample.docType (or_intror eq_refl)
            Sample.queue (Sample.world Sample.queue) _ _ _).
  - reflexivity.
  - eexists. reflexivity.
  - discriminate.
Defined.

(** ** More on the manual retry *)

Section RetryRun.

Context (net : Network) (token : option string) (onLogout : option (Proc unit)).
Hypothesis onLogout_of_App : onLogout = None ∨ onLogout = Some handleLogout.

(** X11. A retry with a credential makes one POST to the retry endpoint of
    the record and never throws.  It always ends with [retryingId] reset and
    the displayed records untouched; when the retry failed (request rejected,
    non-success response, or unreadable success response) the operator is
    told "No se pudo reintentar: <detail>" and no refresh is started;
    otherwise the history refresh is started and nothing is reported. *)
Theorem retry_outcome (op : Operacion.t) w :
  Js.truthy token = true →
  let s := net (trace w ++ [ Did (update (setRetryingId (Some (Operacion.id op))));
                             Did (console "info" ["🔁 Reintentando webhook para:"]) ])
             (retry_request token onLogout op) in
  let out := exec net (retryWebhook token onLogout op) w in
  let delta := events_since w out.2 in
  out.1 = Returned tt
  ∧ Page.retryingId (ui out.2) = None
  ∧ Page.ops (ui out.2) = Page.ops (ui w)
  ∧ requests delta = [retry_request token onLogout op]
  ∧ match retry_failure s with
    | Some detail =>
        last (alerts delta) = Some ("No se pudo reintentar: " +:+ detail)
        ∧ refreshes delta = []
    | None =>
        alerts delta = [] ∧ refreshes delta = ["loadHistorico"]
    end.
Proof.
  intros Ht s out delta. subst delta out.
  assert (∃ tr w', exec net (retryWebhook token onLogout op) w = (Returned tt, w')
              ∧ Page.retryingId (ui w') = None
              ∧ Page.ops (ui w') = Page.ops (ui w)
              ∧ trace w' = trace w ++ tr
              ∧ requests tr = [retry_request token onLogout op]
              ∧ match retry_failure s with
                | Some detail =>
                    last (alerts tr) = Some ("No se pudo reintentar: " +:+ detail)
                    ∧ refreshes tr = []
                | None => alerts tr = [] ∧ refreshes tr = ["loadHistorico"]
                end) as (tr & w' & Hex & Hid & Hops & Htr & Hreq & Hcase).
  { unfold retryWebhook. rewrite Ht. cbn [negb].
    rewrite exec_bind, exec_act, exec_bind, exec_act, exec_try_finally, exec_try_catch,
      exec_bind, exec_fetchWithAuth.
    fold (retry_request token onLogout op). cbv zeta. cbn [Options.onLogout].
    set (s' := net _ _).
    assert (s' = s) as Hs by (unfold s', s; by rewrite !perform_trace, <- app_assoc).
    clearbody s' s. subst s'.
    destruct s as [res|e]; unfold retry_failure.
    - assert (H401 : (Response.status res =? 401) = true → Response.ok res = false).
      { intros E%N.eqb_eq. unfold Response.ok. by rewrite E. }
      destruct (Response.status res =? 401);
        [destruct onLogout_of_App as [-> | ->]; simpl; rewrite H401 by done
        |destruct (Response.ok res); [destruct (Response.json_error res) as [e|]|]];
        simpl;
        (do 2 eexists; do 3 (split; [reflexivity|]);
         split; [unfold record; simpl; rewrite <- ?app_assoc; reflexivity|]; done).
    - simpl. do 2 eexists; do 3 (split; [reflexivity|]).
      split; [unfold record; simpl; rewrite <- ?app_assoc; reflexivity|]. done. }
  rewrite Hex. cbn [fst snd]. rewrite (events_since_app _ _ _ Htr). done.
Qed.

End RetryRun.

Lemma retry_outcome_witness :
  let w := Retry.world Sample.history in
  let out := exec (Sample.scripted [Sample.status_only 500])
               (retryWebhook Sample.token Sample.onLogout Sample.op42) w in
  Page.retryingId (ui out.2) = None
  ∧ last (alerts (events_since w out.2)) = Some "No se pudo reintentar: HTTP 500"
  ∧ refreshes (events_since w out.2) = [].
Proof.
  pose proof (retry_outcome (Sample.scripted [Sample.status_only 500])
                Sample.token Sample.onLogout (or_intror eq_refl) Sample.op42
                (Retry.world Sample.history) eq_refl) as (_ & Hid & _ & _ & Hcase).
  exact (conj Hid Hcase).
Defined.

(** X12. However many times in a row the operator clicks the enabled retry
    button of a record, one retry is started: the first click disables the
    button and every further click is ignored. *)
Theorem repeated_clicks_start_one_retry (c : Retry.Config) (op : Operacion.t) (n : nat) :
  Js.truthy (App.token (app (Retry.world c))) = true →
  Retry.can_start c op = true →
  let c' := Retry.run (replicate (S n) (Retry.Click op)) c in
  c' = Retry.click op c
  ∧ Retry.in_flight c' = Retry.in_flight c ++ [Operacion.id op]
  ∧ Retry.can_start c' op = false.
Proof.
  intros Ht Hcan c'.
  destruct (retry_disables_its_button c op Ht Hcan) as (Hfl & Hoff & Hidem).
  assert (c' = Retry.click op c) as ->; [|done].
  subst c'. unfold Retry.run. cbn [replicate foldl Retry.step].
  induction n as [|n IH]; [done|].
  cbn [replicate foldl Retry.step]. by rewrite Hidem.
Qed.

Lemma repeated_clicks_start_one_retry_witness :
  Retry.in_flight (Retry.run (replicate 3 (Retry.Click Sample.op42)) Sample.history)
  = ["42"].
Proof.
  exact (proj1 (proj2 (repeated_clicks_start_one_retry Sample.history Sample.op42 2
                         eq_refl eq_refl))).
Defined.

Section RetryInvariant.

Lemma retryWebhook_suspends (t : option string) (op : Operacion.t) w :
  Js.truthy t = true →
  ∃ k w', run_sync (retryWebhook t (Some handleLogout) op) w = (AwaitingFetch k, w')
          ∧ retry_resumes k
          ∧ Page.retryingId (ui w') = Some (Operacion.id op).
Proof.
  intros Ht. unfold retryWebhook. rewrite Ht. simpl.
  do 2 eexists. split; [reflexivity|]. split; [|reflexivity].
  intros s w0. destruct s as [res|e]; simpl; [|by do 2 eexists].
  destruct (Response.status res =? 401); simpl;
    destruct (Response.ok res); simpl;
    try destruct (Response.json_error res); simpl; by do 2 eexists.
Qed.

Lemma retryWebhook_without_token (t : option string) cb (op : Operacion.t) w :
  Js.truthy t = false →
  run_sync (retryWebhook t cb op) w
  = (Finished (Returned tt), perform (alert "Sesión caducada") w).
Proof. intros Ht. unfold retryWebhook. by rewrite Ht. Qed.

Lemma click_consistent op c : retry_consistent c → retry_consistent (Retry.click op c).
Proof.
  intros [Hres Hid]. unfold Retry.click.
  destruct (Retry.can_start c op); [|done].
  destruct (Js.truthy (App.token (app (Retry.world c)))) eqn:Ht.
  - destruct (retryWebhook_suspends _ op (Retry.world c) Ht) as (k & w' & -> & Hk & Hw').
    split; simpl.
    + apply Forall_app. split; [done|]. by constructor.
    + intros id. rewrite Hw'. intros [= <-]. unfold Retry.in_flight. simpl.
      rewrite fmap_app, elem_of_app. right. by left.
  - rewrite retryWebhook_without_token by done. done.
Qed.

Lemma settle_consistent n s c : retry_consistent c → retry_consistent (Retry.settle n s c).
Proof.
  intros [Hres Hid]. unfold Retry.settle.
  destruct (Retry.pending c !! n) as [[id k]|] eqn:Hn; [|done].
  assert (Hk : retry_resumes k).
  { rewrite Forall_forall in Hres. apply (Hres (id, k)). by eapply list_elem_of_lookup_2. }
  destruct (Hk s (record (Answered s) (Retry.world c))) as (r & w' & -> & Hw').
  split; simpl.
  - by apply Forall_delete.
  - intros id'. by rewrite Hw'.
Qed.

Lemma run_consistent inputs c : retry_consistent c → retry_consistent (Retry.run inputs c).
Proof.
  revert c. induction inputs as [|i inputs IH]; intros c Hc; [done|].
  apply IH. destruct i as [op|n s]; [by apply click_consistent|by apply settle_consistent].
Qed.

(** X13. However the clicks of the operator and the answers of the service
    interleave, starting from a page with no retry running, the record named
    by [retryingId] (the one whose button reads "Reintentando…") always has a
    retry in flight, and every retry in flight ends, when answered, by
    resetting [retryingId]. *)
Theorem retrying_record_is_in_flight (inputs : list Retry.Input) (c : Retry.Config) :
  Retry.pending c = [] →
  Page.retryingId (ui (Retry.world c)) = None →
  (∀ id, Page.retryingId (ui (Retry.world (Retry.run inputs c))) = Some id →
         id ∈ Retry.in_flight (Retry.run inputs c))
  ∧ (∀ op, retry_cell (ui (Retry.world (Retry.run inputs c))) op
            = RetryButton true "Reintentando…" →
           Operacion.id op ∈ Retry.in_flight (Retry.run inputs c))
  ∧ (∀ n s, n < length (Retry.pending (Retry.run inputs c)) →
            Page.retryingId
              (ui (Retry.world (Retry.settle n s (Retry.run inputs c)))) = None)%nat.
Proof.
  intros Hp Hid.
  assert (Hc : retry_consistent (Retry.run inputs c)).
  { apply run_consistent. split; [by rewrite Hp|by rewrite Hid]. }
  destruct Hc as [Hres Hin]. split_and!.
  - done.
  - intros op. unfold retry_cell.
    destruct (bool_decide (Operacion.status op = Some FAILED)); [|done].
    case_bool_decide as Hr; [|done]. intros _. by apply Hin.
  - intros n s Hn. unfold Retry.settle.
    destruct (lookup_lt_is_Some_2 _ _ Hn) as [[id k] Hk]. rewrite Hk.
    rewrite Forall_forall in Hres.
    assert (Hk' : retry_resumes k) by (apply (Hres (id, k)); by eapply list_elem_of_lookup_2).
    destruct (Hk' s (record (Answered s) (Retry.world (Retry.run inputs c))))
      as (r & w' & -> & Hw').
    done.
Qed.

End RetryInvariant.

Lemma retrying_record_is_in_flight_witness :
  "43" ∈ Retry.in_flight
           (Retry.run [Retry.Click Sample.op42; Retry.Click Sample.op43] Sample.history).
Proof.
  refine (proj1 (retrying_record_is_in_flight
                   [Retry.Click Sample.op42; Retry.Click Sample.op43] Sample.history
                   _ _) "43" _); reflexivity.
Defined.

(** ** The session monitor *)

Lemma exec_session_check (net : Network) label token w :
  let probe := gateway_request "http://localhost:8000/auth/me" (me_options token) in
  let s := net (trace w) probe in
  ∃ tr w', exec net (session_check label token) w = (Returned tt, w')
    ∧ ui w' = ui w
    ∧ app w' = (if ends_session s then App.mk None "dashboard" else app w)
    ∧ trace w' = trace w ++ tr
    ∧ requests tr = [probe]
    ∧ state_updates tr
      = (if ends_session s then [setToken None; setPage "dashboard"] else [])
    ∧ alerts tr
      = match s with
        | Fulfilled r => if Response.status r =? 401 then [expired_notice] else []
        | Rejected _ => []
        end.
Proof.
  intros probe s. unfold session_check.
  rewrite exec_try_catch, exec_bind, exec_fetchWithAuth.
  cbv zeta. cbn [Options.onLogout me_options]. fold (me_options token).
  fold probe. fold s. clearbody s. destruct s as [res|e]; simpl.
  - destruct (Response.status res =? 401); simpl;
      destruct (Response.ok res); simpl;
      (do 2 eexists; do 3 (split; [by destruct w as [[] ? ?]|]);
       split; [unfold record; simpl; rewrite <- ?app_assoc; reflexivity|]; done).
  - do 2 eexists; do 3 (split; [reflexivity|]).
    split; [unfold record; simpl; rewrite <- ?app_assoc; reflexivity|]. done.
Qed.

(** X14. A session check never throws, sends one probe, and ends the session
    exactly when the probe is rejected by the network or answered 401: then
    the token is cleared and the view reset to the dashboard, once, with the
    expiry notice only in the 401 case.  Any other answer, also a failure
    such as 403 or 500, leaves the session as it was. *)
Theorem session_check_outcome (net : Network) label token w :
  let probe := gateway_request "http://localhost:8000/auth/me" (me_options token) in
  let s := net (trace w) probe in
  let out := exec net (session_check label token) w in
  let delta := events_since w out.2 in
  out.1 = Returned tt
  ∧ ui out.2 = ui w
  ∧ app out.2 = (if ends_session s then App.mk None "dashboard" else app w)
  ∧ requests delta = [probe]
  ∧ state_updates delta
    = (if ends_session s then [setToken None; setPage "dashboard"] else [])
  ∧ alerts delta
    = match s with
      | Fulfilled r => if Response.status r =? 401 then [expired_notice] else []
      | Rejected _ => []
      end.
Proof.
  intros probe s out delta. subst delta out.
  destruct (exec_session_check net label token w)
    as (tr & w' & Hex & Hui & Happ & Htr & Hreq & Hup & Hal).
  rewrite Hex. cbn [fst snd]. rewrite (events_since_app _ _ _ Htr). done.
Qed.

(** X15. The verification started on a change of token or page sends nothing
    without a token.  With a token it sends one probe, and once it is over
    the application shows the page that was open, or the login form when the
    probe was rejected or answered 401; it never stays on the "Verificando
    sesión..." screen. *)
Theorem view_after_verification (net : Network) (s : Shell.t) :
  let w := Shell.world s in
  let token := App.token (app w) in
  let probe := gateway_request "http://localhost:8000/auth/me" (me_options token) in
  let s' := verify_on_change net s in
  requests (events_since w (Shell.world s')) = (if Js.truthy token then [probe] else [])
  ∧ App_render s'
    = (if Js.truthy token && negb (ends_session (net (trace w) probe))
       then PageView (App.page (app w)) else LoginView).
Proof.
  intros w token probe s'. subst s'. unfold verify_on_change, App_render.
  fold w. fold token. destruct (Js.truthy token) eqn:Ht; cbn [negb andb].
  - unfold verifyToken. cbn [Shell.world Shell.checkingToken]. fold w. fold token.
    destruct (exec_session_check net "Error verificando token:" token w)
      as (tr & w' & Hex & Hui & Happ & Htr & Hreq & Hup & Hal).
    rewrite Hex. cbn [fst snd]. rewrite (events_since_app _ _ _ Htr).
    split; [done|]. rewrite Happ. fold probe.
    destruct (ends_session (net (trace w) probe)); cbn [negb App.token]; [done|].
    fold token. by rewrite Ht.
  - fold w. fold token. rewrite Ht. split; [|done].
    unfold events_since. by rewrite drop_ge.
Qed.

(** ** The history refresh *)

(** X16. The chain of [loadHistorico] sends one GET and never rejects.  The
    records shown change only after a success response whose body parses; a
    non-success response is reported as "Error cargando histórico", a
    rejected request as "Error desconocido"; and no outcome, a success
    included, ever clears an error line that is already shown. *)
Theorem historico_chain_outcome (json : Response.t → Parsed) (net : Network)
    token onLogout w (h : History.t) :
  onLogout = None ∨ onLogout = Some handleLogout →
  let probe := gateway_request "http://localhost:8000/api/uploads/historico?limit=20"
                 (historico_options token onLogout) in
  let s := net (trace w) probe in
  let out := exec net (historico_chain json token onLogout) w in
  ∃ u, out.1 = Returned u
    ∧ requests (events_since w out.2) = [probe]
    ∧ let h' := apply_history u h in
      (is_Some (History.opsError h) → is_Some (History.opsError h'))
      ∧ (History.ops h' ≠ History.ops h →
         ∃ r, s = Fulfilled r ∧ Response.ok r = true ∧ Response.json_error r = None
              ∧ History.opsError h' = History.opsError h)
      ∧ (∀ r, s = Fulfilled r → Response.ok r = false →
         History.opsError h' = Some "Error cargando histórico")
      ∧ (∀ e, s = Rejected e → History.opsError h' = Some "Error desconocido").
Proof.
  intros Hcb probe s out. subst out.
  assert (∃ u tr w', exec net (historico_chain json token onLogout) w = (Returned u, w')
            ∧ trace w' = trace w ++ tr
            ∧ requests tr = [probe]
            ∧ match s with
              | Fulfilled r =>
                  if Response.ok r then
                    match Response.json_error r with
                    | Some _ => u = setOpsError "Error desconocido"
                    | None => u = setOpsError "Error desconocido" ∨ ∃ items, u = setOps items
                    end
                  else u = setOpsError "Error cargando histórico"
              | Rejected _ => u = setOpsError "Error desconocido"
              end) as (u & tr & w' & Hex & Htr & Hreq & Hu).
  { unfold historico_chain. rewrite exec_try_catch, exec_bind, exec_fetchWithAuth.
    cbv zeta. cbn [Options.onLogout historico_options].
    fold (historico_options token onLogout). fold probe. fold s. clearbody s.
    destruct s as [res|e].
    - assert (H401 : (Response.status res =? 401) = true → Response.ok res = false).
      { intros E%N.eqb_eq. unfold Response.ok. by rewrite E. }
      unfold historico_decode, historico_store.
      destruct (Response.status res =? 401);
        [destruct Hcb as [-> | ->]; simpl; rewrite H401 by done
        |destruct (Response.ok res);
           [destruct (Response.json_error res) as [e|]; [|destruct (json res) as [|items]]|]];
        simpl;
        (do 3 eexists; split; [reflexivity|];
         split; [unfold record; simpl; rewrite <- ?app_assoc; reflexivity|];
         split; [done|]; eauto).
    - simpl. do 3 eexists. split; [reflexivity|].
      split; [unfold record; simpl; rewrite <- ?app_assoc; reflexivity|]. done. }
  exists u. rewrite Hex. cbn [fst snd]. rewrite (events_since_app _ _ _ Htr).
  split; [done|]. split; [done|]. cbv zeta. split_and!.
  - intros Hsome. destruct u; simpl; [done|by eexists].
  - intros Hops. destruct s as [r|e].
    + destruct (Response.ok r) eqn:Hok; [destruct (Response.json_error r) eqn:Hjs|];
        try (subst u; by destruct Hops).
      destruct Hu as [-> | [items ->]]; [by destruct Hops|]. by exists r.
    + subst u. by destruct Hops.
  - intros r -> Hok. rewrite Hok in Hu. by subst u.
  - intros e ->. by subst u.
Qed.

Lemma historico_chain_outcome_witness :
  let net := Sample.scripted [Sample.status_only 500] in
  let h := History.mk [Sample.op42] None in
  ∃ u, (exec net (historico_chain (λ _, JsonNull) Sample.token Sample.onLogout)
          (Sample.world [])).1 = Returned u
       ∧ apply_history u h = History.mk [Sample.op42] (Some "Error cargando histórico").
Proof.
  destruct (historico_chain_outcome (λ _, JsonNull) (Sample.scripted [Sample.status_only 500])
              Sample.token Sample.onLogout (Sample.world [])
              (History.mk [Sample.op42] None) (or_intror eq_refl))
    as (u & Hu & _ & _ & _ & Hfail & _).
  exists u. split; [exact Hu|].
  specialize (Hfail _ eq_refl eq_refl).
  destruct u; simpl in *; [done|]. by injection Hfail as ->.
Defined.

(** ** The manual invoice form *)

Lemma append_if_names name value : (append_if name value).*1 `sublist_of` [name].
Proof.
  unfold append_if. destruct (Js.truthy (Some value)); simpl; [done|].
  apply sublist_nil_l.
Qed.

Lemma append_if_elem name value n v :
  (n, v) ∈ append_if name value → n = name ∧ v = FormText value ∧ value ≠ "".
Proof.
  unfold append_if. destruct (Js.truthy (Some value)) eqn:Ht.
  - intros [= -> ->]%list_elem_of_singleton. split_and!; [done..|].
    intros ->. discriminate Ht.
  - intros []%elem_of_nil.
Qed.

(** The names [handleManualSubmit] may send, in the order of the appends. *)
Lemma manual_payload_names form manualFile :
  (manual_payload form manualFile).*1 `sublist_of`
    [ "fecha"; "fecha_dt"; "proveedor"; "importe_sin_iva_local"; "iva_local";
      "supplier_vat_number"; "total_moneda_local"; "moneda"; "tarifa_cambio";
      "importe_sin_iva_euro"; "importe_total_euro"; "pais_origen"; "id_ext";
      "notas"; "descripcion"; "categoria"; "file" ].
Proof.
  unfold manual_payload. rewrite !fmap_cons, !fmap_app.
  do 5 apply sublist_skip.
  repeat (apply (sublist_app _ [_] _ _); [apply append_if_names|]).
  destruct manualFile; simpl; [done|apply sublist_nil_l].
Qed.

(** X17. The form data of a manual invoice names no field twice and always
    carries [fecha], which the handler never validates; every optional text
    field it carries is non-empty; the file is attached exactly when one was
    chosen; and the form's [total] and [ubicacion_factura] are never sent. *)
Theorem manual_payload_fields (form : ManualForm.t) (manualFile : option File.t) :
  let fd := manual_payload form manualFile in
  NoDup fd.*1
  ∧ fd !! 0%nat = Some ("fecha", FormText (ManualForm.fecha form))
  ∧ (∀ name value, (name, FormText value) ∈ drop 5 fd → value ≠ "")
  ∧ (∀ f, ("file", FormFile f) ∈ fd ↔ manualFile = Some f)
  ∧ ("total" ∉ fd.*1)
  ∧ ("ubicacion_factura" ∉ fd.*1).
Proof.
  intros fd. subst fd.
  pose proof (manual_payload_names form manualFile) as Hsub.
  split_and!.
  - refine (sublist_NoDup _ _ _ Hsub). by apply (bool_decide_unpack _).
  - reflexivity.
  - intros name value. unfold manual_payload. cbn [drop]. rewrite drop_0.
    rewrite !elem_of_app.
    intros H. repeat (destruct H as [H|H]; [by apply append_if_elem in H as (_ & [= ->] & ?)|]).
    destruct manualFile; [by apply list_elem_of_singleton in H|by apply elem_of_nil in H].
  - intros f. unfold manual_payload. rewrite !elem_of_cons, !elem_of_app. split.
    + intros H. repeat (destruct H as [H|H]; [discriminate H|]).
      repeat (destruct H as [H|H]; [by apply append_if_elem in H as (_ & ? & _)|]).
      destruct manualFile; [by apply list_elem_of_singleton in H as [= ->]|by apply elem_of_nil in H].
    + intros ->. do 16 right. by apply list_elem_of_singleton.
  - intros Hin. apply sublist_submseteq in Hsub.
    pose proof (elem_of_submseteq _ _ _ Hin Hsub) as Hin'.
    revert Hin'. by apply (bool_decide_unpack _).
  - intros Hin. apply sublist_submseteq in Hsub.
    pose proof (elem_of_submseteq _ _ _ Hin Hsub) as Hin'.
    revert Hin'. by apply (bool_decide_unpack _).
Qed.

Lemma manual_payload_fields_witness :
  let form := ManualForm.mk "2025-01-10" "ACME" "121" "" "100" "21" "" "EUR" "" "" "" "ES"
                "" "" "" "2025-01-10" "" "tbd" in
  NoDup (manual_payload form (Some Sample.a_pdf)).*1
  ∧ ("total" ∉ (manual_payload form (Some Sample.a_pdf)).*1).
Proof.
  intros form.
  destruct (manual_payload_fields form (Some Sample.a_pdf)) as (Hnd & _ & _ & _ & Ht & _).
  exact (conj Hnd Ht).
Defined.

(** X18. A manual submission without a document type, without a credential
    or with a required field empty only shows one notice: nothing is sent,
    no state is touched and the modal stays open.  The missing type is
    reported before anything else. *)
Theorem manual_submit_refused (net : Network) token onLogout
    (docType : option DocType) form manualFile w :
  docType = None ∨ Js.truthy token = false ∨ manual_incomplete form = true →
  let out := exec net (handleManualSubmit token onLogout docType form manualFile) w in
  out.1 = Returned false
  ∧ app out.2 = app w
  ∧ ui out.2 = ui w
  ∧ ∃ notice, events_since w out.2 = [Did (alert notice)]
              ∧ (docType = None → notice = "Falta el tipo (Factura/Venta).").
Proof.
  intros H out. subst out. unfold handleManualSubmit, events_since.
  destruct docType as [d|];
    [|simpl; rewrite drop_app_length; split_and!; [done..|]; by eexists].
  rewrite (bool_decide_eq_true_2 _ (ltac:(by eexists) : is_Some (Some d))). cbn [negb].
  destruct (Js.truthy token);
    [|simpl; rewrite drop_app_length; split_and!; [done..|]; by eexists].
  destruct (manual_incomplete form);
    [simpl; rewrite drop_app_length; split_and!; [done..|]; by eexists|].
  by destruct H as [?|[?|?]].
Qed.

Lemma manual_submit_refused_witness :
  let form := ManualForm.mk "2025-01-10" "" "" "" "10" "2.1" "" "EUR" "" "" "" "ES"
                "" "" "" "2025-01-10" "" "tbd" in
  requests (events_since (Sample.world [])
              (exec (Sample.scripted []) (handleManualSubmit Sample.token Sample.onLogout
                 Sample.docType form None) (Sample.world [])).2) = [].
Proof.
  intros form.
  destruct (manual_submit_refused (Sample.scripted []) Sample.token Sample.onLogout
              Sample.docType form None (Sample.world []) (or_intror (or_intror eq_refl)))
    as (_ & _ & _ & notice & -> & _).
  reflexivity.
Defined.

(** X19. A manual submission that passes the checks sends one POST with the
    form data and never throws; [uploading] is reset at the end.  The modal
    is closed and the success modal shown exactly when the request got a
    success response whose body parses, and only then, and only with a file
    attached, is the history refresh started; in every other case the
    operator is told "Error guardando factura: <detail>" and the modal stays
    open. *)
Theorem manual_submit_outcome (net : Network) token onLogout
    (docType : option DocType) form manualFile w :
  onLogout = None ∨ onLogout = Some handleLogout →
  is_Some docType →
  Js.truthy token = true →
  manual_incomplete form = false →
  let probe := gateway_request "/api/facturas/manual"
                 (manual_options token onLogout form manualFile) in
  let s := net (trace w ++ [Did (update (setUploading true))]) probe in
  let out := exec net (handleManualSubmit token onLogout docType form manualFile) w in
  let delta := events_since w out.2 in
  ∃ closed, out.1 = Returned closed
    ∧ Page.uploading (ui out.2) = false
    ∧ requests delta = [probe]
    ∧ match retry_failure s with
      | Some detail =>
          closed = false
          ∧ Page.showSuccess (ui out.2) = Page.showSuccess (ui w)
          ∧ last (alerts delta) = Some ("Error guardando factura: " +:+ detail)
          ∧ refreshes delta = []
      | None =>
          closed = true
          ∧ Page.showSuccess (ui out.2) = true
          ∧ alerts delta = []
          ∧ refreshes delta = match manualFile with Some _ => ["loadHistorico"] | None => [] end
      end.
Proof.
  intros Hcb Hdoc Ht Hform probe s out delta. subst delta out.
  assert (∃ closed tr w',
            exec net (handleManualSubmit token onLogout docType form manualFile) w
              = (Returned closed, w')
            ∧ Page.uploading (ui w') = false
            ∧ trace w' = trace w ++ tr
            ∧ requests tr = [probe]
            ∧ match retry_failure s with
              | Some detail =>
                  closed = false
                  ∧ Page.showSuccess (ui w') = Page.showSuccess (ui w)
                  ∧ last (alerts tr) = Some ("Error guardando factura: " +:+ detail)
                  ∧ refreshes tr = []
              | None =>
                  closed = true
                  ∧ Page.showSuccess (ui w') = true
                  ∧ alerts tr = []
                  ∧ refreshes tr = match manualFile with Some _ => ["loadHistorico"] | None => [] end
              end) as (closed & tr & w' & Hex & Hup & Htr & Hreq & Hcase).
  { unfold handleManualSubmit.
    rewrite (bool_decide_eq_true_2 _ Hdoc), Ht, Hform. cbn [negb].
    rewrite exec_bind, exec_act, exec_try_finally, exec_try_catch,
      exec_bind, exec_fetchWithAuth.
    fold probe. cbv zeta. cbn [Options.onLogout manual_options].
    set (s' := net _ _).
    assert (s' = s) as Hs by (unfold s', s; by rewrite !perform_trace).
    clearbody s' s. subst s'.
    destruct s as [res|e]; unfold retry_failure.
    - assert (H401 : (Response.status res =? 401) = true → Response.ok res = false).
      { intros E%N.eqb_eq. unfold Response.ok. by rewrite E. }
      destruct (Response.status res =? 401);
        [destruct Hcb as [-> | ->]; simpl; rewrite H401 by done
        |destruct (Response.ok res);
           [destruct (Response.json_error res) as [e|]; [|destruct manualFile]|]];
        simpl;
        (do 3 eexists; do 2 (split; [reflexivity|]);
         split; [unfold record; simpl; rewrite <- ?app_assoc; reflexivity|]; done).
    - simpl. do 3 eexists; do 2 (split; [reflexivity|]).
      split; [unfold record; simpl; rewrite <- ?app_assoc; reflexivity|]. done. }
  exists closed. rewrite Hex. cbn [fst snd]. rewrite (events_since_app _ _ _ Htr). done.
Qed.

Lemma manual_submit_outcome_witness :
  let form := ManualForm.mk "2025-01-10" "ACME" "" "" "10" "2.1" "" "EUR" "" "" "" "ES"
                "" "" "" "2025-01-10" "" "tbd" in
  let w := Sample.world [] in
  let out := exec (Sample.scripted [Sample.status_only 200])
               (handleManualSubmit Sample.token Sample.onLogout Sample.docType form
                  (Some Sample.a_pdf)) w in
  out.1 = Returned true
  ∧ Page.uploading (ui out.2) = false
  ∧ refreshes (events_since w out.2) = ["loadHistorico"].
Proof.
  intros form w out.
  destruct (manual_submit_outcome (Sample.scripted [Sample.status_only 200])
              Sample.token Sample.onLogout Sample.docType form (Some Sample.a_pdf) w
              (or_intror eq_refl) (ltac:(by eexists)) eq_refl eq_refl)
    as (closed & Hex & Hup & _ & Hc & _ & _ & Href).
  subst out. rewrite Hex, Hc. done.
Defined.

(** ** Opening the confirmation dialog *)

(** X20. [startUpload] and [confirmUpload] test the same three conditions:
    with a credential, a document type and a non-empty queue, [startUpload]
    opens the confirmation dialog without a notice; in every other case it
    shows exactly one notice and changes no state, and [confirmUpload] on
    the same render would do nothing at all. *)
Theorem dialog_opens_iff_batch_can_start (net : Network) (UPLOAD_DELAY_MS : N) token onLogout
    (docType : option DocType) (files : list File.t) w :
  let out := exec net (startUpload token docType files) w in
  let delta := events_since w out.2 in
  out.1 = Returned tt
  ∧ if Js.truthy token && bool_decide (is_Some docType) && negb (bool_decide (files = []))
    then delta = [Did (update (setShowConfirm true))]
         ∧ Page.showConfirm (ui out.2) = true
    else (∃ notice, delta = [Did (alert notice)])
         ∧ ui out.2 = ui w
         ∧ exec net (confirmUpload UPLOAD_DELAY_MS token onLogout docType files) w
           = (Returned tt, w).
Proof.
  intros out delta. subst delta out. unfold events_since.
  destruct (Js.truthy token) eqn:Ht; cbn [andb].
  - destruct docType as [d|].
    + rewrite (bool_decide_eq_true_2 _ (ltac:(by eexists) : is_Some (Some d))). cbn [andb].
      destruct files as [|f files].
      * rewrite bool_decide_eq_true_2 by done. cbn [negb].
        unfold startUpload. rewrite Ht. simpl. rewrite drop_app_length.
        split; [done|]. split; [by eexists|]. split; [done|].
        unfold confirmUpload. by rewrite Ht.
      * rewrite bool_decide_eq_false_2 by done. cbn [negb].
        rewrite (startUpload_opens_dialog net token (Some d) (f :: files) w Ht) by done.
        cbn [fst snd]. simpl. by rewrite drop_app_length.
    + rewrite (bool_decide_eq_false_2 (is_Some None)) by (by intros [? ?]). cbn [andb].
      unfold startUpload. rewrite Ht. simpl. rewrite drop_app_length.
      split; [done|]. split; [by eexists|]. split; [done|].
      unfold confirmUpload. by rewrite Ht.
  - unfold startUpload. rewrite Ht. simpl. rewrite drop_app_length.
    split; [done|]. split; [by eexists|]. split; [done|].
    unfold confirmUpload. by rewrite Ht.
Qed.
